(** * Botco data platform: the React front end, embedded and verified

    The development follows the TypeScript sources:

    - [App.tsx]: the sidebar of scenarios, scenes and episodes, the display
      names, and [handleEpisodeClick], which builds the playback path of an
      episode;
    - [components/VideoPlayer.tsx] (the revision that receives [aiState] and
      [onAiStateChange] as props, its sibling that keeps the same state in
      [useState] cells, and the first revision): submission of a
      segmentation task, polling of its status, the visualization URL and
      the status indicator;
    - [components/InteractiveVideoPlayer.tsx]: click-to-place annotations;
    - [components/EpisodeDataGraph.tsx]: the fetch of the episode data and
      the chart.

    Part 1 holds the embedding, Part 2 the theorems. *)

From Stdlib Require Import String Ascii List Bool Arith NArith ZArith Lia.
From Stdlib Require Import QArith Lqa.
From Stdlib Require Import DecimalString.
From Stdlib Require Import Permutation Sorted.
From Stdlib Require Import Floats.PrimFloat.
Import ListNotations.

Set Warnings "-register-all,-inexact-float".
Close Scope Q_scope.
Open Scope string_scope.

(* ================================================================= *)
(** * Part 1: the embedding *)
(* ================================================================= *)

(** ** JavaScript values

    Task snapshots and response bodies are typed [any] in the sources:
    whatever [response.json()] produced is stored and inspected with
    property reads, optional chaining and truthiness tests.  The model keeps
    that: a value is one of the JSON shapes or [undefined]; numbers are
    IEEE doubles; an object is the association list of its own properties
    (the first binding of a key is the property).  A string is the
    sequence of its code units, each below 256: the strings here have no
    surrogates. *)
Module Js.

Inductive JsVal : Type :=
| JUndefined
| JNull
| JBool (b : bool)
| JNum (n : float)
| JStr (s : string)
| JArr (items : list JsVal)
| JObj (fields : list (string * JsVal)).

(** ToBoolean: [undefined], [null], [false], [0], [-0], [NaN] and the empty
    string are falsy, everything else (every array and object) is truthy. *)
Definition truthy (v : JsVal) : bool :=
  match v with
  | JUndefined | JNull => false
  | JBool b => b
  | JNum n => negb (PrimFloat.eqb n 0%float || PrimFloat.is_nan n)
  | JStr s => negb (String.eqb s "")
  | JArr _ | JObj _ => true
  end.

(** [null] and [undefined], of which no property can be read. *)
Definition nullish (v : JsVal) : bool :=
  match v with
  | JUndefined | JNull => true
  | _ => false
  end.

(** [a || b] on values. *)
Definition orElse (a b : JsVal) : JsVal := if truthy a then a else b.

(** [v === 'literal']: strict equality with a string literal. *)
Definition strictEqStr (v : JsVal) (literal : string) : bool :=
  match v with
  | JStr s => String.eqb s literal
  | _ => false
  end.

Fixpoint lookup (key : string) (fields : list (string * JsVal)) : JsVal :=
  match fields with
  | [] => JUndefined
  | (k, v) :: rest => if String.eqb k key then v else lookup key rest
  end.

(** The own property [key] of an object, if it has one. *)
Fixpoint own (key : string) (fields : list (string * JsVal)) : option JsVal :=
  match fields with
  | [] => None
  | (k, v) :: rest => if String.eqb k key then Some v else own key rest
  end.

(** The properties every object literal inherits from [Object.prototype]
    in a browser.  Their values are functions, and for [__proto__] the
    prototype itself: truthy, and without a [map] method. *)
Definition objectPrototypeKeys : list string :=
  ["constructor"; "hasOwnProperty"; "isPrototypeOf"; "propertyIsEnumerable";
   "toLocaleString"; "toString"; "valueOf"; "__proto__";
   "__defineGetter__"; "__defineSetter__"; "__lookupGetter__"; "__lookupSetter__"].

(** [obj[key]] for an object literal and an arbitrary key: the own
    property, else the inherited one, else [undefined]. *)
Inductive Member : Type :=
| Own (v : JsVal)
| Inherited
| Missing.

Definition member (key : string) (fields : list (string * JsVal)) : Member :=
  match own key fields with
  | Some v => Own v
  | None => if existsb (String.eqb key) objectPrototypeKeys then Inherited else Missing
  end.

(** [v?.key].  The keys the components read ([status], [result],
    [visualization], [visualization_path], [success], [data], [task_id],
    [message]) are not properties of the built-in prototypes, so reading
    them from a boolean, number, string or array gives [undefined]. *)
Definition optGet (v : JsVal) (key : string) : JsVal :=
  match v with
  | JObj fields => lookup key fields
  | _ => JUndefined
  end.

(** What a [throw] carries, as far as [error instanceof Error ?
    error.message : ...] can tell. *)
Inductive Thrown : Type :=
| ThrownError (message : string)
| ThrownOther.

(** The outcome of an expression or of an awaited promise: a thrown value
    (a rejection) or a result. *)
Definition Completion (A : Type) : Type := (Thrown + A)%type.

Definition ret {A} (a : A) : Completion A := inr a.
Definition throw {A} (e : Thrown) : Completion A := inl e.
Definition bind {A B} (c : Completion A) (k : A -> Completion B) : Completion B :=
  match c with
  | inl e => inl e
  | inr a => k a
  end.

(** [try { body } catch (error) { handler }]. *)
Definition tryCatch {A} (body : Completion A) (handler : Thrown -> A) : A :=
  match body with
  | inl e => handler e
  | inr a => a
  end.

(** The parts of the engine the sources rely on without fixing them:
    Number::toString, and the message of the TypeError raised by a property
    read on [null] or [undefined]. *)
Class JsRuntime : Type := {
  numberToString : float -> string;
  nullishReadMessage : JsVal -> string -> string
}.

Section WithRuntime.
Context {rt : JsRuntime}.

(** [v.key]: throws a TypeError on [null] and [undefined]. *)
Definition get (v : JsVal) (key : string) : Completion JsVal :=
  match v with
  | JUndefined | JNull => throw (ThrownError (nullishReadMessage v key))
  | _ => ret (optGet v key)
  end.

(** ToString, as a template literal [`${v}`] and [new Error(v)] apply it.
    An array joins its elements with commas, [null] and [undefined]
    elements contributing nothing. *)
Fixpoint toString (v : JsVal) : string :=
  match v with
  | JUndefined => "undefined"
  | JNull => "null"
  | JBool true => "true"
  | JBool false => "false"
  | JNum n => numberToString n
  | JStr s => s
  | JArr items =>
      (fix join (l : list JsVal) : string :=
         match l with
         | [] => ""
         | x :: rest =>
             match x with
             | JUndefined | JNull => ""
             | _ => toString x
             end ++
             match rest with
             | [] => ""
             | _ :: _ => "," ++ join rest
             end
         end) items
  | JObj _ => "[object Object]"
  end.

End WithRuntime.

(** ToString of a non-negative integer (an HTTP status, a millisecond
    clock reading). *)
Definition natToString (n : N) : string :=
  NilEmpty.string_of_uint (N.to_uint n).

(** [String.prototype.replace(pattern, replacement)] with a string pattern:
    the first occurrence only.  The replacement used by the sources is the
    empty string, which has no [$] patterns. *)
Fixpoint replace (pattern replacement s : string) : string :=
  if String.prefix pattern s
  then replacement ++ String.substring (String.length pattern)
                        (String.length s - String.length pattern) s
  else match s with
       | EmptyString => EmptyString
       | String c rest => String c (replace pattern replacement rest)
       end.

(** [String.prototype.replace(/c/g, replacement)] for a pattern that is one
    literal character: every occurrence. *)
Fixpoint replaceChar (c : ascii) (replacement s : string) : string :=
  match s with
  | EmptyString => EmptyString
  | String d rest =>
      (if Ascii.eqb d c then replacement else String d EmptyString)
        ++ replaceChar c replacement rest
  end.

(** The class [\w] of a regular expression without the [u] flag: ASCII
    letters, digits and the underscore. *)
Definition isWordChar (c : ascii) : bool :=
  let n := nat_of_ascii c in
  (((48 <=? n) && (n <=? 57)) || ((65 <=? n) && (n <=? 90))
   || ((97 <=? n) && (n <=? 122)) || (n =? 95))%nat.

(** [toUpperCase] of a one-character string matched by [\w]. *)
Definition toUpperCase (c : ascii) : ascii :=
  let n := nat_of_ascii c in
  if ((97 <=? n) && (n <=? 122))%nat then ascii_of_nat (n - 32) else c.

(** [s.replace(/\b\w/g, l => l.toUpperCase())]: a word character that
    follows no word character is a match.  [afterWord] tells whether the
    character before [s] is a word character. *)
Fixpoint capitalizeWords (afterWord : bool) (s : string) : string :=
  match s with
  | EmptyString => EmptyString
  | String c rest =>
      String (if isWordChar c && negb afterWord then toUpperCase c else c)
             (capitalizeWords (isWordChar c) rest)
  end.

(** [fetch]: the promise rejects, or resolves to a response whose
    [json()] in turn rejects (malformed body) or yields a value. *)
Record Response : Type := {
  ok : bool;
  status : N;
  json : Completion JsVal
}.

Definition FetchResult : Type := Completion Response.

End Js.

Declare Scope js_scope.
Delimit Scope js_scope with js.
Notation "x <- c ;; k" := (Js.bind c (fun x => k))
  (at level 61, c at next level, right associativity) : js_scope.

(** ** App.tsx *)
Module App.

Record SelectedEpisode : Type := {
  scenarioId : string;
  sceneId : string;
  episodeId : string;
  episodePath : string
}.

(** [handleEpisodeClick]: the value handed to [setSelectedEpisode]. *)
Definition handleEpisodeClick (scenarioId sceneId episodeId : string)
  : SelectedEpisode :=
  let episodePath := "/video/" ++ scenarioId ++ "/" ++ sceneId ++ "/" ++ episodeId in
  {| scenarioId := scenarioId;
     sceneId := sceneId;
     episodeId := episodeId;
     episodePath := episodePath |}.

Definition getEpisodeName (episodeId : string) : string :=
  Js.replace ".mp4" "" episodeId.

Definition getSceneName (sceneId : string) : string :=
  Js.replaceChar "_" " " (Js.replace "scene_" "Scene " sceneId).

Definition getScenarioName (scenarioId : string) : string :=
  Js.capitalizeWords false (Js.replaceChar "_" " " scenarioId).

(** The state cells of the sidebar.  [scenes] and [episodes] are object
    literals used as maps from a key to whatever the server listed for it:
    the association list of their own properties, first binding first.
    The scenario that is expanded is one of the scenarios listed, the only
    ones that can be clicked. *)
Record Tree : Type := {
  expandedScenario : option string;
  expandedScene : option string;
  scenes : list (string * Js.JsVal);
  episodes : list (string * Js.JsVal);
  loadingScenes : option string;
  loadingEpisodes : option string
}.

(** The listings the sidebar asks the server for. *)
Inductive Listing : Type :=
| ScenesOf (scenarioId : string)
| EpisodesOf (scenarioId sceneId : string).

(** [cell === id] for a [string | null] cell. *)
Definition isExpanded (expanded : option string) (id : string) : bool :=
  match expanded with
  | Some current => String.eqb current id
  | None => false
  end.

(** The key [`${scenarioId}-${sceneId}`] of the [episodes] object. *)
Definition episodesKey (scenarioId sceneId : string) : string :=
  scenarioId ++ "-" ++ sceneId.

(** The negation of the test [!listings[key]]: something truthy is read
    under the key. *)
Definition held (key : string) (listings : list (string * Js.JsVal)) : bool :=
  match Js.member key listings with
  | Js.Own v => Js.truthy v
  | Js.Inherited => true
  | Js.Missing => false
  end.

(** [listings[key]?.map(item => ...)] in the render, where the callback
    passes [item] to one of the name functions, which call
    [item.replace]: nothing is read of [null] and [undefined]; of anything
    else [map] must exist, so it is an array, and each item must be a
    string.  [inner] is what the callback renders besides.  [false] when
    a TypeError is thrown. *)
Definition listingRenders (read : Js.Member) (inner : string -> bool) : bool :=
  match read with
  | Js.Missing => true
  | Js.Inherited => false
  | Js.Own v =>
      match v with
      | Js.JUndefined | Js.JNull => true
      | Js.JArr items =>
          forallb (fun item => match item with
                               | Js.JStr name => inner name
                               | _ => false
                               end) items
      | _ => false
      end
  end.

(** Whether the sidebar renders: the scenes of the expanded scenario are
    read unless they are loading, and under them the episodes of the
    expanded scene unless they are loading. *)
Definition sidebarRenders (tree : Tree) : bool :=
  match expandedScenario tree with
  | None => true
  | Some scenarioId =>
      isExpanded (loadingScenes tree) scenarioId
      || listingRenders (Js.member scenarioId (scenes tree))
           (fun sceneId =>
              negb (isExpanded (expandedScene tree) sceneId)
              || isExpanded (loadingEpisodes tree) (episodesKey scenarioId sceneId)
              || listingRenders
                   (Js.member (episodesKey scenarioId sceneId) (episodes tree))
                   (fun _ => true))
  end.

(** The sidebar once React has rendered the cells: [None] when the render
    throws, which unmounts the whole App. *)
Definition rendered (tree : Tree) : option Tree :=
  if sidebarRenders tree then Some tree else None.

Section WithRuntime.
Context {rt : Js.JsRuntime}.
Local Open Scope js_scope.

(** [fetchScenes], from the call to the render after its [finally] block;
    [reply] is what the awaited [fetch] settles to ([encodeURIComponent]
    throws on lone surrogates only, so the request is always sent).  The
    [try] block ends by handing [setScenes] an updater; [data.scenes] is
    read when React runs that updater, in the next render and outside the
    [try]. *)
Definition fetchScenes (scenarioId : string) (reply : Js.FetchResult) (tree : Tree)
  : option Tree :=
  match Js.tryCatch
          (response <- reply ;;
           data <- Js.json response ;;
           Js.ret (Some data))
          (fun _ => None)
  with
  | None =>
      rendered {| expandedScenario := expandedScenario tree;
                  expandedScene := expandedScene tree;
                  scenes := scenes tree;
                  episodes := episodes tree;
                  loadingScenes := None;
                  loadingEpisodes := loadingEpisodes tree |}
  | Some data =>
      match Js.get data "scenes" with
      | inl _ => None
      | inr listed =>
          rendered {| expandedScenario := expandedScenario tree;
                      expandedScene := expandedScene tree;
                      scenes := (scenarioId, Js.orElse listed (Js.JArr [])) :: scenes tree;
                      episodes := episodes tree;
                      loadingScenes := None;
                      loadingEpisodes := loadingEpisodes tree |}
      end
  end.

Definition fetchEpisodes (scenarioId sceneId : string) (reply : Js.FetchResult)
    (tree : Tree) : option Tree :=
  match Js.tryCatch
          (response <- reply ;;
           data <- Js.json response ;;
           Js.ret (Some data))
          (fun _ => None)
  with
  | None =>
      rendered {| expandedScenario := expandedScenario tree;
                  expandedScene := expandedScene tree;
                  scenes := scenes tree;
                  episodes := episodes tree;
                  loadingScenes := loadingScenes tree;
                  loadingEpisodes := None |}
  | Some data =>
      match Js.get data "episodes" with
      | inl _ => None
      | inr listed =>
          rendered {| expandedScenario := expandedScenario tree;
                      expandedScene := expandedScene tree;
                      scenes := scenes tree;
                      episodes :=
                        (episodesKey scenarioId sceneId, Js.orElse listed (Js.JArr []))
                          :: episodes tree;
                      loadingScenes := loadingScenes tree;
                      loadingEpisodes := None |}
      end
  end.

(** [handleScenarioClick]: the listings requested, and the sidebar once
    the fetch the click may start has settled with [reply] and React has
    rendered.  While the fetch is under way the scenario shows its spinner
    and nothing is read of [scenes]. *)
Definition handleScenarioClick (scenarioId : string) (reply : Js.FetchResult)
    (tree : Tree) : list Listing * option Tree :=
  if isExpanded (expandedScenario tree) scenarioId
  then ([], rendered {| expandedScenario := None;
                        expandedScene := None;
                        scenes := scenes tree;
                        episodes := episodes tree;
                        loadingScenes := loadingScenes tree;
                        loadingEpisodes := loadingEpisodes tree |})
  else
    let opened :=
      {| expandedScenario := Some scenarioId;
         expandedScene := None;
         scenes := scenes tree;
         episodes := episodes tree;
         loadingScenes := loadingScenes tree;
         loadingEpisodes := loadingEpisodes tree |} in
    if negb (held scenarioId (scenes tree))
    then ([ScenesOf scenarioId], fetchScenes scenarioId reply opened)
    else ([], rendered opened).

Definition handleSceneClick (scenarioId sceneId : string) (reply : Js.FetchResult)
    (tree : Tree) : list Listing * option Tree :=
  if isExpanded (expandedScene tree) sceneId
  then ([], rendered {| expandedScenario := expandedScenario tree;
                        expandedScene := None;
                        scenes := scenes tree;
                        episodes := episodes tree;
                        loadingScenes := loadingScenes tree;
                        loadingEpisodes := loadingEpisodes tree |})
  else
    let opened :=
      {| expandedScenario := expandedScenario tree;
         expandedScene := Some sceneId;
         scenes := scenes tree;
         episodes := episodes tree;
         loadingScenes := loadingScenes tree;
         loadingEpisodes := loadingEpisodes tree |} in
    if negb (held (episodesKey scenarioId sceneId) (episodes tree))
    then ([EpisodesOf scenarioId sceneId],
          fetchEpisodes scenarioId sceneId reply opened)
    else ([], rendered opened).

End WithRuntime.

(** A string without the character [c]. *)
Fixpoint free (c : ascii) (s : string) : bool :=
  match s with
  | EmptyString => true
  | String d rest => negb (Ascii.eqb d c) && free c rest
  end.

(** What the [try] block of [fetchScenes] and [fetchEpisodes] gets out of
    a reply: the parsed body, unless the request or the parsing failed. *)
Definition parsed (reply : Js.FetchResult) : option Js.JsVal :=
  match reply with
  | inr response =>
      match Js.json response with
      | inr data => Some data
      | inl _ => None
      end
  | inl _ => None
  end.

(** What a parsed body lists under [key]: [data[key] || []]. *)
Definition listing (key : string) (data : Js.JsVal) : Js.JsVal :=
  Js.orElse (Js.optGet data key) (Js.JArr []).

(** A list of names, as the server sends it. *)
Definition isNames (v : Js.JsVal) : bool :=
  match v with
  | Js.JArr items =>
      forallb (fun item => match item with Js.JStr _ => true | _ => false end) items
  | _ => false
  end.

End App.

(** ** components/VideoPlayer.tsx *)
Module VideoPlayer.
Import Js.
Local Open Scope js_scope.

(** The [aiState] prop: the session the host keeps for the selected video.
    [aiTaskId] is whatever [data.data.task_id] was, [aiTaskStatus] whatever
    the last stored snapshot was; [null] is [JNull].  A [null] prop behaves
    as [AiState.initial]. *)
Module AiState.
Record t : Type := mk {
  runAI : bool;
  aiTaskId : JsVal;
  aiTaskStatus : JsVal;
  aiError : option string
}.
Definition initial : t :=
  {| runAI := false; aiTaskId := JNull; aiTaskStatus := JNull; aiError := None |}.
End AiState.
Abbreviation AiState := AiState.t.

(** The object literals passed to [onAiStateChange]: the keys present in
    the literal carry [Some], the keys left out [None]. *)
Record AiStateUpdate : Type := {
  set_runAI : option bool;
  set_aiTaskId : option JsVal;
  set_aiTaskStatus : option JsVal;
  set_aiError : option (option string)
}.

Definition orKeep {A} (update : option A) (current : A) : A :=
  match update with
  | Some a => a
  | None => current
  end.

(** Modelled from the spec: the host's [onAiStateChange] handler is not
    among the sources (the component only declares the prop
    [onAiStateChange: (updates: any) => void]).  The session is a value
    object owned by the host and changed only through these calls; a call
    overwrites the fields it names and keeps the others.  This is also what
    the sibling revision does with its [setRunAI], [setAiTaskId],
    [setAiTaskStatus] and [setAiError] cells. *)
Definition onAiStateChange (updates : AiStateUpdate) (aiState : AiState) : AiState :=
  {| AiState.runAI := orKeep (set_runAI updates) (AiState.runAI aiState);
     AiState.aiTaskId := orKeep (set_aiTaskId updates) (AiState.aiTaskId aiState);
     AiState.aiTaskStatus := orKeep (set_aiTaskStatus updates) (AiState.aiTaskStatus aiState);
     AiState.aiError := orKeep (set_aiError updates) (AiState.aiError aiState) |}.

(** The four constants at the head of the component,
    [aiState?.field || default]. *)
Definition runAI (aiState : AiState) : bool :=
  AiState.runAI aiState || false.

Definition aiTaskId (aiState : AiState) : JsVal :=
  orElse (AiState.aiTaskId aiState) JNull.

Definition aiTaskStatus (aiState : AiState) : JsVal :=
  orElse (AiState.aiTaskStatus aiState) JNull.

Definition aiError (aiState : AiState) : option string :=
  match AiState.aiError aiState with
  | Some message => if String.eqb message "" then None else Some message
  | None => None
  end.

(** [aiTaskStatus?.status] *)
Definition taskStatus (aiState : AiState) : JsVal :=
  optGet (aiTaskStatus aiState) "status".

Definition getVideoRelativePath (episodePath : string) : string :=
  replace "/video/" "" episodePath.

(** The body posted by [startAIProcessing]. *)
Definition requestBody (episodePath : string) : JsVal :=
  let videoPath := getVideoRelativePath episodePath in
  JObj [("video_relative_path", JStr videoPath);
        ("prompts",
         JArr [JObj [("frame_idx", JNum 0);
                     ("prompts",
                      JArr [JObj [("type", JStr "point");
                                  ("coordinates", JArr [JNum 160; JNum 120]);
                                  ("label", JNum 1)]])]]);
        ("mode", JStr "automatic_mask_generator")].

(** [{ status: 'PENDING', progress: 0 }] *)
Definition pendingStatus : JsVal :=
  JObj [("status", JStr "PENDING"); ("progress", JNum 0)].

Definition resetUpdate : AiStateUpdate :=
  {| set_runAI := Some false;
     set_aiTaskId := Some JNull;
     set_aiTaskStatus := Some JNull;
     set_aiError := Some None |}.

Section WithRuntime.
Context {rt : JsRuntime}.

(** The [try] block of [startAIProcessing] after the first
    [onAiStateChange]: it completes with the state update of the success
    branch, or throws.  [reply] is what the awaited [fetch] settles to. *)
Definition startAIProcessing_try (reply : FetchResult) : Completion AiStateUpdate :=
  response <- reply ;;
  if negb (ok response)
  then throw (ThrownError ("HTTP error! status: " ++ natToString (status response)))
  else
    data <- json response ;;
    success <- get data "success" ;;
    accepted <- (if truthy success
                 then inner <- get data "data" ;; ret (optGet inner "task_id")
                 else ret success) ;;
    if truthy accepted
    then
      inner <- get data "data" ;;
      task_id <- get inner "task_id" ;;
      ret {| set_runAI := None;
             set_aiTaskId := Some task_id;
             set_aiTaskStatus := Some pendingStatus;
             set_aiError := None |}
    else
      message <- get data "message" ;;
      throw (ThrownError (toString (orElse message (JStr "Failed to start AI processing")))).

(** [error instanceof Error ? error.message : 'Unknown error occurred'] *)
Definition errorMessage (error : Thrown) : string :=
  match error with
  | ThrownError message => message
  | ThrownOther => "Unknown error occurred"
  end.

Definition startAIProcessing (reply : FetchResult) (aiState : AiState) : AiState :=
  let cleared :=
    onAiStateChange {| set_runAI := None; set_aiTaskId := None;
                       set_aiTaskStatus := None; set_aiError := Some None |} aiState in
  tryCatch
    (stateUpdate <- startAIProcessing_try reply ;;
     ret (onAiStateChange stateUpdate cleared))
    (fun error =>
       onAiStateChange {| set_runAI := None; set_aiTaskId := None;
                          set_aiTaskStatus := None;
                          set_aiError := Some (Some (errorMessage error)) |} cleared).

(** The address polled by [checkAITaskStatus]. *)
Definition taskUrl (aiState : AiState) : string :=
  "http://localhost:8000/api/v1/ai/tasks/" ++ toString (aiTaskId aiState).

(** The [try] block of [checkAITaskStatus]: [Some snapshot] when the body
    passes [data.success && data.data], [None] when it does not. *)
Definition checkAITaskStatus_try (reply : FetchResult) : Completion (option JsVal) :=
  response <- reply ;;
  data <- json response ;;
  success <- get data "success" ;;
  if truthy success
  then
    snapshot <- get data "data" ;;
    if truthy snapshot then ret (Some snapshot) else ret None
  else ret None.

(** [checkAITaskStatus]: the requests it issues and the session it leaves.
    No request goes out without a task id; a thrown error and an
    unsuccessful body are logged and nothing else. *)
Definition checkAITaskStatus (reply : FetchResult) (aiState : AiState)
  : list string * AiState :=
  if negb (truthy (aiTaskId aiState)) then ([], aiState)
  else
    ([taskUrl aiState],
     tryCatch
       (found <- checkAITaskStatus_try reply ;;
        match found with
        | Some snapshot =>
            ret (onAiStateChange {| set_runAI := None; set_aiTaskId := None;
                                    set_aiTaskStatus := Some snapshot;
                                    set_aiError := None |} aiState)
        | None => ret aiState
        end)
       (fun _ => aiState)).

(** [getVisualizationUrl]; [None] is [null]. *)
Definition getVisualizationUrl (aiState : AiState) : option string :=
  let visualization := optGet (optGet (aiTaskStatus aiState) "result") "visualization" in
  if strictEqStr (taskStatus aiState) "COMPLETED" && truthy visualization
  then Some ("http://localhost:8000" ++ toString (optGet visualization "visualization_path"))
  else None.

Definition visualizationUrl (aiState : AiState) : option string :=
  getVisualizationUrl aiState.

(** Truthiness of a [string | null]. *)
Definition present (s : option string) : bool :=
  match s with
  | Some text => negb (String.eqb text "")
  | None => false
  end.

Definition getStatusIndicator (aiState : AiState) : string :=
  if strictEqStr (taskStatus aiState) "COMPLETED" && present (visualizationUrl aiState)
  then "success"
  else if strictEqStr (taskStatus aiState) "FAILED" || present (aiError aiState)
  then "error"
  else if strictEqStr (taskStatus aiState) "RUNNING"
          || strictEqStr (taskStatus aiState) "PENDING"
  then "pending"
  else "empty".

(** The first effect, [useEffect(..., [runAI, aiTaskId, aiError])]: what it
    does for the state it runs in. *)
Inductive StartEffect : Type :=
| CallStartAIProcessing
| ResetAiState
| NoEffect.

Definition startEffect (aiState : AiState) : StartEffect :=
  if runAI aiState && negb (truthy (aiTaskId aiState)) && negb (present (aiError aiState))
  then CallStartAIProcessing
  else if negb (runAI aiState) && truthy (aiTaskId aiState)
  then ResetAiState
  else NoEffect.

Definition runStartEffect (reply : FetchResult) (aiState : AiState) : AiState :=
  match startEffect aiState with
  | CallStartAIProcessing => startAIProcessing reply aiState
  | ResetAiState => onAiStateChange resetUpdate aiState
  | NoEffect => aiState
  end.

(** The checkbox: [onChange] stores the new [runAI], the first effect then
    runs on the changed state.  [reply] answers the submission the effect
    may start. *)
Definition toggle (checked : bool) (reply : FetchResult) (aiState : AiState) : AiState :=
  runStartEffect reply
    (onAiStateChange {| set_runAI := Some checked; set_aiTaskId := None;
                        set_aiTaskStatus := None; set_aiError := None |} aiState).

(** The [disabled] attribute of the checkbox: the user cannot change the
    toggle while the last known status is RUNNING. *)
Definition toggleDisabled (aiState : AiState) : bool :=
  strictEqStr (taskStatus aiState) "RUNNING".

(** The second effect, [useEffect(..., [aiTaskId, aiTaskStatus?.status])]:
    the 2000 ms interval exists exactly in the states that pass its test. *)
Definition polling (aiState : AiState) : bool :=
  truthy (aiTaskId aiState)
  && (strictEqStr (taskStatus aiState) "RUNNING"
      || strictEqStr (taskStatus aiState) "PENDING").

(** One period of the interval: [checkAITaskStatus] runs if the interval
    exists.  A poll is one round trip: the reply is stored before the next
    period. *)
Definition intervalTick (reply : FetchResult) (aiState : AiState)
  : list string * AiState :=
  if polling aiState then checkAITaskStatus reply aiState else ([], aiState).

(** The component over a sequence of periods, one reply per period: the
    requests issued, in order, and the final session.  These are the runs
    in which every reply arrives before the next period; [pollerRun] below
    has the others. *)
Fixpoint pollAll (replies : list FetchResult) (aiState : AiState)
  : list string * AiState :=
  match replies with
  | [] => ([], aiState)
  | reply :: later =>
      let (issued, next) := intervalTick reply aiState in
      let (issuedLater, final) := pollAll later next in
      ((issued ++ issuedLater)%list, final)
  end.

(** [checkAITaskStatus] from the point where its [fetch] has settled with
    [reply]: the snapshot of a successful body is handed to
    [onAiStateChange], anything else is logged.  Nothing here looks at what
    the session holds by then. *)
Definition storeReply (reply : FetchResult) (aiState : AiState) : AiState :=
  tryCatch
    (found <- checkAITaskStatus_try reply ;;
     match found with
     | Some snapshot =>
         ret (onAiStateChange {| set_runAI := None; set_aiTaskId := None;
                                 set_aiTaskStatus := Some snapshot;
                                 set_aiError := None |} aiState)
     | None => ret aiState
     end)
    (fun _ => aiState).

(** The interval and the network on their own clocks.  [setInterval] calls
    [checkAITaskStatus] every 2000 ms without asking whether an earlier
    call has been answered, and a reply is stored when it arrives: a
    period elapses, or one of the unanswered requests settles. *)
Inductive PollEvent : Type :=
| Elapse
| Arrive (reply : FetchResult).

(** The session together with the number of polls sent and not yet
    answered. *)
Record Poller : Type := {
  session : AiState;
  unanswered : nat
}.

Definition pollerStep (event : PollEvent) (poller : Poller) : list string * Poller :=
  match event with
  | Elapse =>
      if polling (session poller) && truthy (aiTaskId (session poller))
      then ([taskUrl (session poller)],
            {| session := session poller; unanswered := S (unanswered poller) |})
      else ([], poller)
  | Arrive reply =>
      match unanswered poller with
      | O => ([], poller)
      | S others =>
          ([], {| session := storeReply reply (session poller); unanswered := others |})
      end
  end.

Fixpoint pollerRun (events : list PollEvent) (poller : Poller)
  : list string * Poller :=
  match events with
  | [] => ([], poller)
  | event :: later =>
      let (issued, next) := pollerStep event poller in
      let (issuedLater, final) := pollerRun later next in
      ((issued ++ issuedLater)%list, final)
  end.

(** The run in which each period is followed by the reply to its poll. *)
Definition inOrder (replies : list FetchResult) : list PollEvent :=
  flat_map (fun reply => [Elapse; Arrive reply]) replies.

End WithRuntime.

(** The terminal statuses of a task. *)
Definition terminal (aiState : AiState) : bool :=
  strictEqStr (taskStatus aiState) "COMPLETED"
  || strictEqStr (taskStatus aiState) "FAILED".

(** The four statuses the component distinguishes in its status line. *)
Definition isTaskStatus (status : JsVal) : bool :=
  strictEqStr status "PENDING" || strictEqStr status "RUNNING"
  || strictEqStr status "COMPLETED" || strictEqStr status "FAILED".

(** The test [data.success && data.data?.task_id] of [startAIProcessing]. *)
Definition payloadAccepted (data : JsVal) : bool :=
  truthy (optGet data "success")
  && truthy (optGet (optGet data "data") "task_id").

(** The failing submissions: the request does not get through (network
    error), the response is not 2xx, the body does not parse, or the
    payload carries no truthy [success] or no truthy [data.task_id]. *)
Definition submissionFails (reply : FetchResult) : bool :=
  match reply with
  | inl _ => true
  | inr response =>
      negb (ok response)
      || match json response with
         | inl _ => true
         | inr data => negb (payloadAccepted data)
         end
  end.

(** The test [data.success && data.data] of [checkAITaskStatus]. *)
Definition snapshotDelivered (data : JsVal) : bool :=
  truthy (optGet data "success") && truthy (optGet data "data").

(** The failing polls: the request or the parsing of the body throws, or
    the body carries no truthy [success] or no truthy [data]. *)
Definition pollFails (reply : FetchResult) : bool :=
  match reply with
  | inl _ => true
  | inr response =>
      match json response with
      | inl _ => true
      | inr data => negb (snapshotDelivered data)
      end
  end.

(** The reply delivers a snapshot whose status is RUNNING or PENDING, the
    two statuses for which the interval is kept. *)
Definition deliversUnfinished (reply : FetchResult) : bool :=
  match reply with
  | inl _ => false
  | inr response =>
      match json response with
      | inl _ => false
      | inr data =>
          snapshotDelivered data
          && (strictEqStr (optGet (optGet data "data") "status") "RUNNING"
              || strictEqStr (optGet (optGet data "data") "status") "PENDING")
      end
  end.

(** The right-hand pane of the component: the visualization video, the
    placeholder shown while a visualization is expected (with or without
    its progress line, and with the truthy [result.visualization_error] it
    prints), or the hint to enable processing.  The percentage printed in
    the progress line is not part of the model. *)
Inductive Pane : Type :=
| VideoPane (src : string)
| GeneratingPane (progressShown : bool) (visualizationError : option JsVal)
| HintPane.

(** The requests the component sends. *)
Inductive Request : Type :=
| PostProcessVideo (body : JsVal)
| GetTask (url : string).

(** What happens to a session: the user flips the checkbox (and [reply]
    answers the submission this may start), or a period of the polling
    interval elapses (and [reply] answers the poll it may issue). *)
Inductive SessionEvent : Type :=
| Toggle (checked : bool) (reply : FetchResult)
| Period (reply : FetchResult).

(** The event unchecks the box. *)
Definition switchesOff (event : SessionEvent) : bool :=
  match event with
  | Toggle checked _ => negb checked
  | Period _ => false
  end.

(** The request is a poll. *)
Definition isPoll (request : Request) : bool :=
  match request with
  | GetTask _ => true
  | PostProcessVideo _ => false
  end.

Section Rendering.
Context {rt : JsRuntime}.

Definition visualizationPane (aiState : AiState) : Pane :=
  match visualizationUrl aiState with
  | Some url =>
      if negb (String.eqb url "") then VideoPane url
      else
        if runAI aiState || strictEqStr (taskStatus aiState) "RUNNING"
           || strictEqStr (taskStatus aiState) "PENDING"
        then GeneratingPane
               (strictEqStr (taskStatus aiState) "RUNNING" || runAI aiState)
               (let failure :=
                  optGet (optGet (aiTaskStatus aiState) "result") "visualization_error" in
                if truthy failure then Some failure else None)
        else HintPane
  | None =>
      if runAI aiState || strictEqStr (taskStatus aiState) "RUNNING"
         || strictEqStr (taskStatus aiState) "PENDING"
      then GeneratingPane
             (strictEqStr (taskStatus aiState) "RUNNING" || runAI aiState)
             (let failure :=
                optGet (optGet (aiTaskStatus aiState) "result") "visualization_error" in
              if truthy failure then Some failure else None)
      else HintPane
  end.

Definition sessionStep (episodePath : string) (event : SessionEvent)
    (aiState : AiState) : list Request * AiState :=
  match event with
  | Toggle checked reply =>
      let changed :=
        onAiStateChange {| set_runAI := Some checked; set_aiTaskId := None;
                           set_aiTaskStatus := None; set_aiError := None |} aiState in
      (match startEffect changed with
       | CallStartAIProcessing => [PostProcessVideo (requestBody episodePath)]
       | _ => []
       end,
       toggle checked reply aiState)
  | Period reply =>
      let (urls, next) := intervalTick reply aiState in
      (map GetTask urls, next)
  end.

Fixpoint runSession (episodePath : string) (events : list SessionEvent)
    (aiState : AiState) : list Request * AiState :=
  match events with
  | [] => ([], aiState)
  | event :: later =>
      let (sent, next) := sessionStep episodePath event aiState in
      let (sentLater, final) := runSession episodePath later next in
      ((sent ++ sentLater)%list, final)
  end.

End Rendering.

End VideoPlayer.

(** ** The revision of the video player with [useState] cells

    The four cells are read as they are, without the [|| default] of the
    props revision; a cell is written by its setter. *)
Module VideoPlayerLocal.
Import Js VideoPlayer.
Local Open Scope js_scope.

(** [aiTaskStatus?.status] *)
Definition taskStatus (cells : AiState) : JsVal :=
  optGet (AiState.aiTaskStatus cells) "status".

(** The test of the polling effect:
    [aiTaskId && status !== 'COMPLETED' && status !== 'FAILED']. *)
Definition polling (cells : AiState) : bool :=
  truthy (AiState.aiTaskId cells)
  && negb (strictEqStr (taskStatus cells) "COMPLETED")
  && negb (strictEqStr (taskStatus cells) "FAILED").

Section WithRuntime.
Context {rt : JsRuntime}.

Definition taskUrl (cells : AiState) : string :=
  "http://localhost:8000/api/v1/ai/tasks/" ++ toString (AiState.aiTaskId cells).

Definition setAiTaskStatus (snapshot : JsVal) (cells : AiState) : AiState :=
  {| AiState.runAI := AiState.runAI cells;
     AiState.aiTaskId := AiState.aiTaskId cells;
     AiState.aiTaskStatus := snapshot;
     AiState.aiError := AiState.aiError cells |}.

(** [checkAITaskStatus]: a response that is not [ok] is logged and
    dropped before its body is read. *)
Definition checkAITaskStatus (reply : FetchResult) (cells : AiState)
  : list string * AiState :=
  if negb (truthy (AiState.aiTaskId cells)) then ([], cells)
  else
    ([taskUrl cells],
     tryCatch
       (response <- reply ;;
        if negb (ok response) then ret cells
        else
          data <- json response ;;
          success <- get data "success" ;;
          if truthy success
          then
            snapshot <- get data "data" ;;
            if truthy snapshot then ret (setAiTaskStatus snapshot cells) else ret cells
          else ret cells)
       (fun _ => cells)).

Definition intervalTick (reply : FetchResult) (cells : AiState)
  : list string * AiState :=
  if polling cells then checkAITaskStatus reply cells else ([], cells).

End WithRuntime.

(** The snapshot a reply delivers: the [data] of a 2xx response whose body
    parsed and passed [data.success && data.data]. *)
Definition delivers (reply : FetchResult) : option JsVal :=
  match reply with
  | inl _ => None
  | inr response =>
      if ok response
      then match json response with
           | inl _ => None
           | inr body =>
               if truthy (optGet body "success") && truthy (optGet body "data")
               then Some (optGet body "data")
               else None
           end
      else None
  end.

End VideoPlayerLocal.

(** ** The first revision of the video player

    [useState] cells, the endpoints [/ai/process-video] and
    [/ai/task-status/<id>], and a response body that is the task itself. *)
Module VideoPlayerLegacy.
Import Js VideoPlayer.
Local Open Scope js_scope.

(** What this revision reads of a response. *)
Record Response : Type := {
  ok : bool;
  statusText : string;
  json : Completion JsVal
}.

Definition FetchResult : Type := Completion Response.

Section WithRuntime.
Context {rt : JsRuntime}.

(** [error instanceof Error ? error.message : 'Unknown error'] *)
Definition errorMessage (error : Thrown) : string :=
  match error with
  | ThrownError message => message
  | ThrownOther => "Unknown error"
  end.

(** [startAIProcessing]: the task id is whatever [data.task_id] is; a
    failure stores its message and switches the toggle off. *)
Definition startAIProcessing (reply : FetchResult) (cells : AiState) : AiState :=
  let cleared :=
    {| AiState.runAI := AiState.runAI cells;
       AiState.aiTaskId := AiState.aiTaskId cells;
       AiState.aiTaskStatus := AiState.aiTaskStatus cells;
       AiState.aiError := None |} in
  tryCatch
    (response <- reply ;;
     if negb (ok response)
     then throw (ThrownError ("AI service error: " ++ statusText response))
     else
       data <- json response ;;
       task_id <- get data "task_id" ;;
       ret {| AiState.runAI := AiState.runAI cleared;
              AiState.aiTaskId := task_id;
              AiState.aiTaskStatus := AiState.aiTaskStatus cleared;
              AiState.aiError := AiState.aiError cleared |})
    (fun error =>
       {| AiState.runAI := false;
          AiState.aiTaskId := AiState.aiTaskId cleared;
          AiState.aiTaskStatus := AiState.aiTaskStatus cleared;
          AiState.aiError := Some (errorMessage error) |}).

(** The first effect, [useEffect(..., [runAI, aiTaskId])]. *)
Definition startEffect (cells : AiState) : StartEffect :=
  if AiState.runAI cells && negb (truthy (AiState.aiTaskId cells))
  then CallStartAIProcessing
  else if negb (AiState.runAI cells) && truthy (AiState.aiTaskId cells)
  then ResetAiState
  else NoEffect.

(** The second effect, [useEffect(..., [aiTaskId])]: the interval exists
    whenever a task id is held. *)
Definition polling (cells : AiState) : bool :=
  truthy (AiState.aiTaskId cells).

Definition taskUrl (cells : AiState) : string :=
  "http://localhost:8000/ai/task-status/" ++ toString (AiState.aiTaskId cells).

Definition checkAITaskStatus (reply : FetchResult) (cells : AiState)
  : list string * AiState :=
  if negb (truthy (AiState.aiTaskId cells)) then ([], cells)
  else
    ([taskUrl cells],
     tryCatch
       (response <- reply ;;
        if ok response
        then
          status <- json response ;;
          ret (VideoPlayerLocal.setAiTaskStatus status cells)
        else ret cells)
       (fun _ => cells)).

Definition intervalTick (reply : FetchResult) (cells : AiState)
  : list string * AiState :=
  if polling cells then checkAITaskStatus reply cells else ([], cells).

Fixpoint pollAll (replies : list FetchResult) (cells : AiState)
  : list string * AiState :=
  match replies with
  | [] => ([], cells)
  | reply :: later =>
      let (issued, next) := intervalTick reply cells in
      let (issuedLater, final) := pollAll later next in
      ((issued ++ issuedLater)%list, final)
  end.

(** The message of each failing submission: that of the rejection or of
    the parse error, the status text of a response that is not [ok], or
    the TypeError of reading [task_id] from a body that is [null]. *)
Definition failureMessage (reply : FetchResult) : string :=
  match reply with
  | inl error => errorMessage error
  | inr response =>
      if ok response
      then match json response with
           | inl error => errorMessage error
           | inr data => nullishReadMessage data "task_id"
           end
      else "AI service error: " ++ statusText response
  end.

End WithRuntime.

(** The failing submissions of this revision: the request does not get
    through, the response is not [ok], the body does not parse, or it
    parses to [null]. *)
Definition submissionFails (reply : FetchResult) : bool :=
  match reply with
  | inl _ => true
  | inr response =>
      negb (ok response)
      || match json response with
         | inl _ | inr JNull | inr JUndefined => true
         | inr _ => false
         end
  end.

End VideoPlayerLegacy.

(** ** components/InteractiveVideoPlayer.tsx

    Pixel offsets and percentages are JavaScript numbers and are computed:
    they are IEEE 754 doubles here, with the operations of the source
    ([PrimFloat] is binary64 with round to nearest, ties to even, as the
    numbers of the engine are).  The playback time is only stored and
    compared; [currentTime] is a finite double, kept as the rational it
    denotes. *)
Module InteractiveVideoPlayer.
Local Open Scope Q_scope.

Record Annotation : Type := {
  id : string;
  x : float;
  y : float;
  text : string;
  timestamp : Q
}.

(** What [getBoundingClientRect()] returns, as far as the handler reads it. *)
Record DOMRect : Type := {
  left : float;
  top : float;
  width : float;
  height : float
}.

Record MouseEvent : Type := {
  clientX : float;
  clientY : float
}.

(** The four [useState] cells of the component. *)
Record State : Type := {
  annotations : list Annotation;
  isEditing : bool;
  editingAnnotation : option Annotation;
  tempText : string
}.

(** [handleVideoClick].  [containerRef] is the bounding rectangle of the
    container when [containerRef.current] is set, [videoRef] the
    [currentTime] of the video when [videoRef.current] is set, [now] the
    reading of [Date.now()].  [y > bottomThreshold] is false when either
    side is [NaN], as [<?] is. *)
Definition handleVideoClick (containerRef : option DOMRect) (videoRef : option Q)
    (now : N) (event : MouseEvent) (state : State) : State :=
  match containerRef, videoRef with
  | Some rect, Some currentTime =>
      let x := (clientX event - left rect)%float in
      let y := (clientY event - top rect)%float in
      let bottomThreshold := (height rect * 0.8)%float in
      if (bottomThreshold <? y)%float then state
      else
        let timestamp := currentTime in
        let newAnnotation :=
          {| id := Js.natToString now;
             x := ((x / width rect) * 100)%float;
             y := ((y / height rect) * 100)%float;
             text := "";
             timestamp := timestamp |} in
        {| annotations := (annotations state ++ [newAnnotation])%list;
           editingAnnotation := Some newAnnotation;
           tempText := "";
           isEditing := true |}
  | _, _ => state
  end.

Definition handleAnnotationClick (annotation : Annotation) (state : State) : State :=
  {| annotations := annotations state;
     editingAnnotation := Some annotation;
     tempText := text annotation;
     isEditing := true |}.

(** [editingAnnotation?.id === id] *)
Definition editingHasId (state : State) (id' : string) : bool :=
  match editingAnnotation state with
  | Some annotation => String.eqb (id annotation) id'
  | None => false
  end.

Definition handleDeleteAnnotation (id' : string) (state : State) : State :=
  let remaining :=
    filter (fun ann => negb (String.eqb (id ann) id')) (annotations state) in
  if editingHasId state id'
  then {| annotations := remaining;
          isEditing := false;
          editingAnnotation := None;
          tempText := tempText state |}
  else {| annotations := remaining;
          isEditing := isEditing state;
          editingAnnotation := editingAnnotation state;
          tempText := tempText state |}.


(** [{ ...ann, text: tempText }] *)
Definition withText (annotation : Annotation) (text' : string) : Annotation :=
  {| id := id annotation;
     x := x annotation;
     y := y annotation;
     text := text';
     timestamp := timestamp annotation |}.

Definition handleTextSubmit (state : State) : State :=
  match editingAnnotation state with
  | None => state
  | Some editing =>
      {| annotations :=
           map (fun ann =>
                  if String.eqb (id ann) (id editing)
                  then withText ann (tempText state)
                  else ann)
               (annotations state);
         isEditing := false;
         editingAnnotation := None;
         tempText := "" |}
  end.

Definition handleTextCancel (state : State) : State :=
  {| annotations := annotations state;
     isEditing := false;
     editingAnnotation := None;
     tempText := "" |}.

(** [handleKeyPress], by [event.key]. *)
Definition handleKeyPress (key : string) (state : State) : State :=
  if String.eqb key "Enter" then handleTextSubmit state
  else if String.eqb key "Escape" then handleTextCancel state
  else state.

(** The [onChange] of the text area: [setTempText(e.target.value)]. *)
Definition handleTextChange (value : string) (state : State) : State :=
  {| annotations := annotations state;
     isEditing := isEditing state;
     editingAnnotation := editingAnnotation state;
     tempText := value |}.

(** [annotations.sort((a, b) => a.timestamp - b.timestamp)]: the sort is
    stable, so an annotation goes before the first one whose timestamp is
    not smaller, and equal timestamps keep their order.  For finite
    doubles the difference the comparator returns has the sign of the
    exact difference. *)
Fixpoint insertByTimestamp (annotation : Annotation) (sorted : list Annotation)
  : list Annotation :=
  match sorted with
  | [] => [annotation]
  | next :: rest =>
      if Qle_bool (timestamp annotation) (timestamp next)
      then annotation :: next :: rest
      else next :: insertByTimestamp annotation rest
  end.

Fixpoint sortByTimestamp (items : list Annotation) : list Annotation :=
  match items with
  | [] => []
  | annotation :: rest => insertByTimestamp annotation (sortByTimestamp rest)
  end.

(** A render: the annotations list sorts the array of the state cell in
    place, so the handlers that follow see it sorted. *)
Definition render (state : State) : State :=
  {| annotations := sortByTimestamp (annotations state);
     isEditing := isEditing state;
     editingAnnotation := editingAnnotation state;
     tempText := tempText state |}.

(** Whether the text input modal is shown: [isEditing && editingAnnotation]. *)
Definition modalShown (state : State) : bool :=
  isEditing state
  && match editingAnnotation state with Some _ => true | None => false end.

(** The four cells as [useState] initialises them. *)
Definition initialState : State :=
  {| annotations := []; isEditing := false; editingAnnotation := None; tempText := "" |}.

(** The states the component goes through: each handler fires from what is
    on screen.  A click reaches [handleVideoClick] from the mounted
    container, a marker or a delete button belongs to an annotation of the
    list. *)
Inductive Reachable : State -> Prop :=
| reach_initial : Reachable initialState
| reach_videoClick rect videoRef now event state :
    Reachable state ->
    Reachable (handleVideoClick (Some rect) videoRef now event state)
| reach_annotationClick annotation state :
    Reachable state -> In annotation (annotations state) ->
    Reachable (handleAnnotationClick annotation state)
| reach_delete annotation state :
    Reachable state -> In annotation (annotations state) ->
    Reachable (handleDeleteAnnotation (id annotation) state)
| reach_textChange value state :
    Reachable state -> Reachable (handleTextChange value state)
| reach_keyPress key state :
    Reachable state -> Reachable (handleKeyPress key state)
| reach_submit state :
    Reachable state -> Reachable (handleTextSubmit state)
| reach_cancel state :
    Reachable state -> Reachable (handleTextCancel state)
| reach_render state :
    Reachable state -> Reachable (render state).

(** Whether some annotation of the list has the given id. *)
Definition hasId (id' : string) (items : list Annotation) : bool :=
  existsb (fun ann => String.eqb (id ann) id') items.

(** The annotation open in the editor, if any, is one of the list (by id). *)
Definition editingListed (state : State) : Prop :=
  match editingAnnotation state with
  | Some editing => hasId (id editing) (annotations state) = true
  | None => True
  end.

(** The two editor cells agree: [isEditing] is set exactly when an
    annotation is open. *)
Definition editorConsistent (state : State) : Prop :=
  isEditing state
  = match editingAnnotation state with Some _ => true | None => false end.

(** What every handler keeps: the two editor cells agree, and the open
    annotation is one of the list. *)
Definition invariant (state : State) : Prop :=
  editorConsistent state /\ editingListed state.

(** The order of the annotations list. *)
Definition byTimestamp (a b : Annotation) : Prop := timestamp a <= timestamp b.

End InteractiveVideoPlayer.

(** ** components/EpisodeDataGraph.tsx *)
Module EpisodeDataGraph.
Import Js.
Local Open Scope js_scope.

(** The three [useState] cells.  [data] is what [setData] was handed: the
    [data_points] of the response, or the mock data. *)
Record State : Type := {
  data : JsVal;
  loading : bool;
  error : option string
}.

(** What [renderGraph] returns. *)
Inductive Pane : Type :=
| LoadingPane
| ErrorPane (message : string)
| EmptyPane
| ChartPane.








Section WithRuntime.
Context {rt : JsRuntime}.


(** [err instanceof Error ? err.message : 'Failed to fetch episode data'] *)
Definition errorMessage (err : Thrown) : string :=
  match err with
  | ThrownError message => message
  | ThrownOther => "Failed to fetch episode data"
  end.


(** The message of each failing fetch: that of the rejection or of the
    parse error; the status line of a response that is not 2xx; the
    TypeError of reading [success] from a body that is [null]; otherwise
    the [message] of the body or, when that is falsy, the default text. *)
Definition failureMessage (reply : FetchResult) : string :=
  match reply with
  | inl err => errorMessage err
  | inr response =>
      if ok response
      then match json response with
           | inl err => errorMessage err
           | inr result =>
               if nullish result then nullishReadMessage result "success"
               else toString (orElse (optGet result "message")
                                     (JStr "Failed to load episode data"))
           end
      else "HTTP error! status: " ++ natToString (status response)
  end.

End WithRuntime.



(** *** The chart

    The arithmetic of the [data.map] callback, over exact rationals;
    [0.18] is the fraction 18/100. *)
Local Open Scope Q_scope.

Record Joint : Type := {
  observation_state : Q;
  action : Q
}.

Record DataPoint : Type := {
  time : Q;
  left_waist : Joint;
  left_forearm_roll : Joint;
  left_wrist_rotate : Joint
}.

Record Line : Type := {
  x1 : Q;
  y1 : Q;
  x2 : Q;
  y2 : Q
}.

Definition xOf (time : Q) : Q := 60 + (time / 8) * 680.

Definition yOf (value : Q) : Q := 200 - (value / (18 # 100)) * 180.

(** The line the callback draws for one series between [prevPoint] and
    [point]. *)
Definition line (series : DataPoint -> Q) (prevPoint point : DataPoint) : Line :=
  {| x1 := xOf (time prevPoint);
     y1 := yOf (series prevPoint);
     x2 := xOf (time point);
     y2 := yOf (series point) |}.

(** The lines of one series, by index: none at index 0, then one from
    each point's predecessor to the point. *)
Fixpoint lines (series : DataPoint -> Q) (data : list DataPoint) : list Line :=
  match data with
  | [] => []
  | prevPoint :: rest =>
      match rest with
      | [] => []
      | point :: _ => line series prevPoint point :: lines series rest
      end
  end.

(** A point of the recorded range: between 0 and 8 seconds, the series
    value between -0.18 and 0.18. *)
Definition inRange (series : DataPoint -> Q) (point : DataPoint) : Prop :=
  0 <= time point /\ time point <= 8 /\
  - (18 # 100) <= series point /\ series point <= 18 # 100.

(** A line inside the plotting area, between the axes of the view box. *)
Definition inPlot (l : Line) : Prop :=
  60 <= x1 l /\ x1 l <= 740 /\ 60 <= x2 l /\ x2 l <= 740 /\
  20 <= y1 l /\ y1 l <= 380 /\ 20 <= y2 l /\ y2 l <= 380.

(** Each line starts where the one before it ends. *)
Fixpoint connected (ls : list Line) : Prop :=
  match ls with
  | [] => True
  | l :: rest =>
      match rest with
      | [] => True
      | next :: _ => x2 l = x1 next /\ y2 l = y1 next
      end /\ connected rest
  end.

End EpisodeDataGraph.

(** ** A runtime and sessions for the worked examples

    None of the examples below converts a number to a string, so
    [numberToString] is left trivial here; the TypeError wording is V8's. *)
Module Examples.
Import Js VideoPlayer.

#[export] Instance engine : JsRuntime := {|
  numberToString := fun _ => "NaN";
  nullishReadMessage := fun v key =>
    "Cannot read properties of " ++ match v with JNull => "null" | _ => "undefined" end
      ++ " (reading '" ++ key ++ "')"
|}.

(** A session in which task [abc123] was submitted and its last stored
    snapshot is [snapshot]. *)
Definition sessionWith (snapshot : JsVal) : AiState :=
  {| AiState.runAI := true;
     AiState.aiTaskId := JStr "abc123";
     AiState.aiTaskStatus := snapshot;
     AiState.aiError := None |}.

(** [{status: "COMPLETED", result: {visualization: {}}}] *)
Definition completedWithoutPath : JsVal :=
  JObj [("status", JStr "COMPLETED");
        ("result", JObj [("visualization", JObj [])])].

(** [{status: "COMPLETED", result: {}}] *)
Definition completedEmptyResult : JsVal :=
  JObj [("status", JStr "COMPLETED"); ("result", JObj [])].

(** [{status: "COMPLETED", result: {visualization: {visualization_path: "/viz/abc123.mp4"}}}] *)
Definition completedWithPath : JsVal :=
  JObj [("status", JStr "COMPLETED");
        ("result",
         JObj [("visualization",
                JObj [("visualization_path", JStr "/viz/abc123.mp4")])])].

(** [{status: "RUNNING", progress: 0.42}] *)
Definition running : JsVal :=
  JObj [("status", JStr "RUNNING"); ("progress", JNum 0.42)].

(** [{status: "QUEUED"}], a status the component has no name for. *)
Definition queued : JsVal :=
  JObj [("status", JStr "QUEUED")].

(** A response with the given status line and parsed body. *)
Definition replied (ok : bool) (status : N) (body : JsVal) : FetchResult :=
  inr {| Js.ok := ok; Js.status := status; Js.json := inr body |}.

(** An HTTP 500 from the submission endpoint. *)
Definition http500 : FetchResult :=
  replied false 500 (JObj [("detail", JStr "Internal Server Error")]).

(** [{success: true, data: {task_id: "abc123"}}] *)
Definition accepted : JsVal :=
  JObj [("success", JBool true); ("data", JObj [("task_id", JStr "abc123")])].

(** The session after the user switched the toggle on and before the
    submission settles. *)
Definition switchedOn : AiState :=
  {| AiState.runAI := true;
     AiState.aiTaskId := JNull;
     AiState.aiTaskStatus := JNull;
     AiState.aiError := None |}.

(** [{status: "FAILED", error: "out of memory"}] *)
Definition failed : JsVal :=
  JObj [("status", JStr "FAILED"); ("error", JStr "out of memory")].

(** A 200 response to a poll, [{success: true, data: snapshot}]. *)
Definition deliver (snapshot : JsVal) : FetchResult :=
  replied true 200 (JObj [("success", JBool true); ("data", snapshot)]).

(** The request never reached the server. *)
Definition networkError : FetchResult :=
  inl (ThrownError "Failed to fetch").

(** The session a failed submission leaves behind. *)
Definition failedSubmission : AiState :=
  {| AiState.runAI := true;
     AiState.aiTaskId := JNull;
     AiState.aiTaskStatus := JNull;
     AiState.aiError := Some "HTTP error! status: 500" |}.

(** A container of 200 by 100 pixels whose corner is at (100, 50), and a
    click inside it at (150, 100). *)
Definition frame : InteractiveVideoPlayer.DOMRect :=
  {| InteractiveVideoPlayer.left := 100; InteractiveVideoPlayer.top := 50;
     InteractiveVideoPlayer.width := 200; InteractiveVideoPlayer.height := 100 |}.

Definition clickInside : InteractiveVideoPlayer.MouseEvent :=
  {| InteractiveVideoPlayer.clientX := 150; InteractiveVideoPlayer.clientY := 100 |}.




Definition note (id : string) : InteractiveVideoPlayer.Annotation :=
  {| InteractiveVideoPlayer.id := id;
     InteractiveVideoPlayer.x := 25; InteractiveVideoPlayer.y := 50;
     InteractiveVideoPlayer.text := "gripper"; InteractiveVideoPlayer.timestamp := 3 |}.

(** One annotation, made at 5 seconds of playback, and no editor open. *)
Definition later : InteractiveVideoPlayer.State :=
  {| InteractiveVideoPlayer.annotations :=
       [{| InteractiveVideoPlayer.id := "1690000000000";
           InteractiveVideoPlayer.x := 40; InteractiveVideoPlayer.y := 20;
           InteractiveVideoPlayer.text := "approach";
           InteractiveVideoPlayer.timestamp := 5 |}];
     InteractiveVideoPlayer.isEditing := false;
     InteractiveVideoPlayer.editingAnnotation := None;
     InteractiveVideoPlayer.tempText := "" |}.

(** Two annotations, the first of them open in the editor. *)
Definition editingFirst : InteractiveVideoPlayer.State :=
  {| InteractiveVideoPlayer.annotations := [note "1700000000000"; note "1700000000500"];
     InteractiveVideoPlayer.isEditing := true;
     InteractiveVideoPlayer.editingAnnotation := Some (note "1700000000000");
     InteractiveVideoPlayer.tempText := "gripper" |}.

(** A sidebar with nothing expanded and nothing listed yet. *)
Definition collapsed : App.Tree :=
  {| App.expandedScenario := None;
     App.expandedScene := None;
     App.scenes := [];
     App.episodes := [];
     App.loadingScenes := None;
     App.loadingEpisodes := None |}.

(** The sidebar with the scenario [pick_place] expanded and its two scenes
    listed. *)
Definition scenesShown : App.Tree :=
  {| App.expandedScenario := Some "pick_place";
     App.expandedScene := None;
     App.scenes := [("pick_place", JArr [JStr "scene_01"; JStr "scene_02"])];
     App.episodes := [];
     App.loadingScenes := None;
     App.loadingEpisodes := None |}.

(** [{scenes: ["scene_01", "scene_02"]}] *)
Definition scenesListed : FetchResult :=
  replied true 200 (JObj [("scenes", JArr [JStr "scene_01"; JStr "scene_02"])]).

(** [{episodes: ["episode_000001.mp4"]}] *)
Definition episodesListed : FetchResult :=
  replied true 200 (JObj [("episodes", JArr [JStr "episode_000001.mp4"])]).

(** The playback path of an episode. *)
Definition episodePath : string := "/video/pick_place/scene_01/episode_000001.mp4".

(** A 500 as the first revision reads it. *)
Definition legacyHttp500 : VideoPlayerLegacy.FetchResult :=
  inr {| VideoPlayerLegacy.ok := false;
         VideoPlayerLegacy.statusText := "Internal Server Error";
         VideoPlayerLegacy.json := inr JNull |}.

(** A 200 whose body is the COMPLETED task, as the first revision reads it. *)
Definition legacyCompleted : VideoPlayerLegacy.FetchResult :=
  inr {| VideoPlayerLegacy.ok := true;
         VideoPlayerLegacy.statusText := "OK";
         VideoPlayerLegacy.json := inr completedWithPath |}.

End Examples.

(* ================================================================= *)
(** * Part 2: the theorems *)
(* ================================================================= *)

(** ** Strings *)
Module StringFacts.

Lemma substring_all (s : string) : String.substring 0 (String.length s) s = s.
Proof.
  induction s as [|c s IH]; simpl.
  - reflexivity.
  - now rewrite IH.
Qed.

Lemma prefix_append (p s : string) : String.prefix p (p ++ s) = true.
Proof.
  induction p as [|c p IH]; simpl.
  - now destruct s.
  - destruct (Ascii.ascii_dec c c); [exact IH | congruence].
Qed.

Lemma substring_append (p s : string) (n : nat) :
  String.substring (String.length p) n (p ++ s) = String.substring 0 n s.
Proof. induction p as [|c p IH]; simpl; [reflexivity | exact IH]. Qed.

Lemma length_append (p s : string) :
  String.length (p ++ s) = String.length p + String.length s.
Proof. induction p as [|c p IH]; simpl; [reflexivity | now rewrite IH]. Qed.

Lemma replace_unfold (pattern replacement s : string) :
  Js.replace pattern replacement s =
  if String.prefix pattern s
  then replacement ++ String.substring (String.length pattern)
                        (String.length s - String.length pattern) s
  else match s with
       | EmptyString => EmptyString
       | String c rest => String c (Js.replace pattern replacement rest)
       end.
Proof. now destruct s. Qed.

(** A string that starts with the pattern loses exactly that occurrence. *)
Lemma replace_leading (pattern replacement s : string) :
  Js.replace pattern replacement (pattern ++ s) = replacement ++ s.
Proof.
  rewrite replace_unfold, prefix_append, substring_append, length_append.
  replace (String.length pattern + String.length s - String.length pattern)
    with (String.length s) by lia.
  now rewrite substring_all.
Qed.

Lemma eqb_empty_false (s : string) : s <> "" -> String.eqb s "" = false.
Proof. intro H. now apply String.eqb_neq. Qed.

End StringFacts.

(** ** The video player *)
Module VideoPlayerSpec.
Import Js VideoPlayer.

(** C8.  The playback path built by [handleEpisodeClick], passed through
    [getVideoRelativePath], is [scenarioId/sceneId/episodeId].  The prefix
    sits at index 0 of the path, so it is the occurrence [replace] removes
    whatever the three identifiers contain: the side condition of the claim
    is not needed. *)
Theorem relative_path_round_trip (scenarioId sceneId episodeId : string) :
  getVideoRelativePath
    (App.episodePath (App.handleEpisodeClick scenarioId sceneId episodeId))
  = scenarioId ++ "/" ++ sceneId ++ "/" ++ episodeId.
Proof.
  unfold getVideoRelativePath, App.handleEpisodeClick; cbn [App.episodePath].
  now rewrite StringFacts.replace_leading.
Qed.

(** *** Values *)

Lemma strictEqStr_true (v : JsVal) (literal : string) :
  strictEqStr v literal = true <-> v = JStr literal.
Proof.
  destruct v; simpl; try (split; [discriminate | congruence]).
  rewrite String.eqb_eq. split; congruence.
Qed.

Lemma strictEqStr_exclusive (v : JsVal) (a b : string) :
  a <> b -> strictEqStr v a = true -> strictEqStr v b = false.
Proof.
  intros Hab Ha. apply strictEqStr_true in Ha. subst v. simpl.
  now apply String.eqb_neq.
Qed.

Lemma truthy_orElse_null (v : JsVal) : truthy (orElse v JNull) = truthy v.
Proof. unfold orElse. destruct (truthy v) eqn:E; [exact E | reflexivity]. Qed.

Lemma orElse_truthy (v w : JsVal) : truthy v = true -> orElse v w = v.
Proof. unfold orElse. now intros ->. Qed.

Lemma truthy_optGet_object (v : JsVal) (key : string) :
  truthy (optGet v key) = true -> exists fields, v = JObj fields.
Proof. destruct v; simpl; try discriminate. eauto. Qed.

Section Facts.
Context {rt : JsRuntime}.

Lemma get_object (fields : list (string * JsVal)) (key : string) :
  get (JObj fields) key = inr (lookup key fields).
Proof. reflexivity. Qed.

(** *** The visualization URL *)

Lemma getVisualizationUrl_unfold (aiState : AiState) :
  getVisualizationUrl aiState =
  let visualization :=
    optGet (optGet (aiTaskStatus aiState) "result") "visualization" in
  if strictEqStr (taskStatus aiState) "COMPLETED" && truthy visualization
  then Some ("http://localhost:8000"
             ++ toString (optGet visualization "visualization_path"))
  else None.
Proof. reflexivity. Qed.

(** A URL is returned exactly for a COMPLETED snapshot whose
    [result.visualization] is truthy. *)
Lemma getVisualizationUrl_resolves (aiState : AiState) :
  getVisualizationUrl aiState <> None <->
  strictEqStr (taskStatus aiState) "COMPLETED" = true /\
  truthy (optGet (optGet (aiTaskStatus aiState) "result") "visualization") = true.
Proof.
  rewrite getVisualizationUrl_unfold; cbv zeta.
  destruct (strictEqStr _ _); destruct (truthy _); simpl;
    (split;
     [ intros H; try (split; reflexivity); exfalso; now apply H
     | intros [H1 H2]; congruence ]).
Qed.

(** A returned URL is never the empty string. *)
Lemma present_getVisualizationUrl (aiState : AiState) :
  present (getVisualizationUrl aiState) =
  strictEqStr (taskStatus aiState) "COMPLETED"
  && truthy (optGet (optGet (aiTaskStatus aiState) "result") "visualization").
Proof.
  rewrite getVisualizationUrl_unfold; cbv zeta.
  destruct (_ && _); reflexivity.
Qed.

(** With a path that is a string, the URL is the server base followed by
    the path, taken verbatim. *)
Lemma getVisualizationUrl_path (aiState : AiState) (path : string) :
  strictEqStr (taskStatus aiState) "COMPLETED" = true ->
  optGet (optGet (optGet (aiTaskStatus aiState) "result") "visualization")
    "visualization_path" = JStr path ->
  getVisualizationUrl aiState = Some ("http://localhost:8000" ++ path).
Proof.
  intros Hs Hp. rewrite getVisualizationUrl_unfold; cbv zeta.
  rewrite Hs, Hp.
  destruct (optGet (optGet _ "result") "visualization"); simpl in *;
    try discriminate; reflexivity.
Qed.

(** C1.  A COMPLETED snapshot whose [result.visualization] is an object
    without [visualization_path], [{status: "COMPLETED", result:
    {visualization: {}}}], does not give [null]: the test of
    [getVisualizationUrl] looks at [result.visualization] only, and the
    template literal then renders the missing path as the text
    [undefined]. *)
Theorem getVisualizationUrl_missing_path :
  getVisualizationUrl (Examples.sessionWith Examples.completedWithoutPath)
  = Some "http://localhost:8000undefined".
Proof. reflexivity. Qed.

(** *** The status indicator *)

Lemma getStatusIndicator_unfold (aiState : AiState) :
  getStatusIndicator aiState =
  if strictEqStr (taskStatus aiState) "COMPLETED"
     && present (getVisualizationUrl aiState)
  then "success"
  else if strictEqStr (taskStatus aiState) "FAILED" || present (aiError aiState)
  then "error"
  else if strictEqStr (taskStatus aiState) "RUNNING"
          || strictEqStr (taskStatus aiState) "PENDING"
  then "pending"
  else "empty".
Proof. reflexivity. Qed.

(** When the indicator is [error]: exactly when the snapshot is not a
    COMPLETED one with a resolving URL and, besides, the status is FAILED
    or a submission error is set.  So FAILED always gives [error] and a
    submission error gives [error] over PENDING and RUNNING; a COMPLETED
    snapshot with no URL has no branch of its own and gives [error] only
    through a submission error. *)
Lemma getStatusIndicator_error (aiState : AiState) :
  (getStatusIndicator aiState = "error" <->
     strictEqStr (taskStatus aiState) "COMPLETED"
       && present (getVisualizationUrl aiState) = false /\
     strictEqStr (taskStatus aiState) "FAILED" || present (aiError aiState) = true)
  /\ (strictEqStr (taskStatus aiState) "FAILED" = true ->
      getStatusIndicator aiState = "error")
  /\ (present (aiError aiState) = true ->
      strictEqStr (taskStatus aiState) "RUNNING"
        || strictEqStr (taskStatus aiState) "PENDING" = true ->
      getStatusIndicator aiState = "error")
  /\ (strictEqStr (taskStatus aiState) "COMPLETED" = true ->
      getVisualizationUrl aiState = None ->
      getStatusIndicator aiState
      = if present (aiError aiState) then "error" else "empty").
Proof.
  rewrite getStatusIndicator_unfold.
  repeat split.
  - destruct (_ && _); [discriminate|].
    destruct (_ || _); [reflexivity|].
    destruct (_ || _); discriminate.
  - destruct (_ && _); [discriminate|].
    destruct (_ || _); [reflexivity|].
    destruct (_ || _); discriminate.
  - intros [-> ->]. reflexivity.
  - intros Hf.
    rewrite (strictEqStr_exclusive _ "FAILED" "COMPLETED") by (congruence || exact Hf).
    now rewrite Hf.
  - intros He Hp. rewrite He, orb_true_r.
    apply orb_true_iff in Hp.
    assert (strictEqStr (taskStatus aiState) "COMPLETED" = false) as ->.
    { destruct Hp as [Hp|Hp];
        eapply strictEqStr_exclusive; try exact Hp; discriminate. }
    reflexivity.
  - intros Hc Hn. rewrite Hn, Hc. simpl.
    rewrite (strictEqStr_exclusive _ "COMPLETED" "FAILED") by (congruence || exact Hc).
    rewrite (strictEqStr_exclusive _ "COMPLETED" "RUNNING") by (congruence || exact Hc).
    rewrite (strictEqStr_exclusive _ "COMPLETED" "PENDING") by (congruence || exact Hc).
    simpl. now destruct (present (aiError aiState)).
Qed.

(** *** Submission *)

(** Closes a goal [exists error, body = inl error] whose body computes to a
    throw. *)
Ltac thrown := intros; eexists; reflexivity.

Lemma startAIProcessing_try_accepts (response : Response) (data : JsVal) :
  ok response = true ->
  json response = inr data ->
  payloadAccepted data = true ->
  startAIProcessing_try (inr response)
  = inr {| set_runAI := None;
           set_aiTaskId := Some (optGet (optGet data "data") "task_id");
           set_aiTaskStatus := Some pendingStatus;
           set_aiError := None |}.
Proof.
  intros Hok Hjson Hacc.
  apply andb_true_iff in Hacc as [Hsuccess Htask].
  destruct (truthy_optGet_object _ _ Hsuccess) as [fields ->].
  destruct (truthy_optGet_object _ _ Htask) as [inner Hinner].
  unfold startAIProcessing_try, bind. rewrite Hok, Hjson. cbn [negb].
  rewrite !get_object. cbn [optGet] in *.
  rewrite Hsuccess, Hinner in *. cbn [ret optGet] in *.
  rewrite Htask, get_object. reflexivity.
Qed.

Lemma startAIProcessing_try_fails (reply : FetchResult) :
  submissionFails reply = true ->
  exists error, startAIProcessing_try reply = inl error.
Proof.
  destruct reply as [error | response]; [thrown|].
  unfold submissionFails, startAIProcessing_try, bind.
  destruct (ok response); cbn [negb orb]; [|thrown].
  destruct (json response) as [error | data]; [thrown|].
  unfold payloadAccepted. intros Hrefused. apply negb_true_iff in Hrefused.
  destruct data; try thrown.
  cbn [get optGet] in *. unfold ret, throw.
  destruct (truthy (lookup "success" fields)) eqn:Hsuccess.
  - cbn [andb] in Hrefused. rewrite Hrefused. thrown.
  - rewrite Hsuccess. thrown.
Qed.

(** A failed submission stores the message of what was thrown and touches
    nothing else. *)
Lemma startAIProcessing_thrown (reply : FetchResult) (error : Thrown)
    (aiState : AiState) :
  startAIProcessing_try reply = inl error ->
  startAIProcessing reply aiState
  = {| AiState.runAI := AiState.runAI aiState;
       AiState.aiTaskId := AiState.aiTaskId aiState;
       AiState.aiTaskStatus := AiState.aiTaskStatus aiState;
       AiState.aiError := Some (errorMessage error) |}.
Proof. unfold startAIProcessing, tryCatch, bind. now intros ->. Qed.

(** What a failing submission (network error, non-2xx status, unparsable
    body, payload without [success] or [data.task_id]) leaves: the message
    of the failure stored as the submission error and every other field as
    it was, the toggle included.  With a non-empty message the effect that
    starts submissions does not fire again. *)
Lemma startAIProcessing_failure (reply : FetchResult) (aiState : AiState) :
  submissionFails reply = true ->
  exists error,
    startAIProcessing_try reply = inl error /\
    AiState.aiError (startAIProcessing reply aiState) = Some (errorMessage error) /\
    AiState.aiTaskId (startAIProcessing reply aiState) = AiState.aiTaskId aiState /\
    AiState.aiTaskStatus (startAIProcessing reply aiState)
      = AiState.aiTaskStatus aiState /\
    AiState.runAI (startAIProcessing reply aiState) = AiState.runAI aiState /\
    truthy (aiTaskId (startAIProcessing reply aiState)) = truthy (aiTaskId aiState) /\
    (errorMessage error <> "" ->
       present (aiError (startAIProcessing reply aiState)) = true /\
       startEffect (startAIProcessing reply aiState) <> CallStartAIProcessing).
Proof.
  intros Hfails.
  destruct (startAIProcessing_try_fails reply Hfails) as [error Htry].
  exists error. rewrite (startAIProcessing_thrown reply error aiState Htry).
  cbn [AiState.aiError AiState.aiTaskId AiState.aiTaskStatus AiState.runAI].
  split; [exact Htry|]. do 5 (split; [reflexivity|]).
  intros Hmessage. apply StringFacts.eqb_empty_false in Hmessage.
  unfold startEffect, aiError; cbn [AiState.aiError].
  rewrite Hmessage. cbn [present]. rewrite Hmessage. cbn [negb].
  split; [reflexivity|].
  rewrite andb_false_r. destruct (_ && _); discriminate.
Qed.

(** C6.  A 2xx response whose body holds [success: true] and
    [data: {task_id: t}] with [t] non-empty makes [startAIProcessing] store
    [t] as the task id together with the synthesized snapshot
    [{status: 'PENDING', progress: 0}]; no poll takes part.  The stored
    status reads PENDING, the progress 0, and the polling interval is on. *)
Theorem startAIProcessing_success (response : Response)
    (fields inner : list (string * JsVal)) (t : string) (aiState : AiState) :
  ok response = true ->
  json response = inr (JObj fields) ->
  lookup "success" fields = JBool true ->
  lookup "data" fields = JObj inner ->
  lookup "task_id" inner = JStr t ->
  t <> "" ->
  let after := startAIProcessing (inr response) aiState in
  AiState.aiTaskId after = JStr t /\
  AiState.aiTaskStatus after = pendingStatus /\
  AiState.aiError after = None /\
  AiState.runAI after = AiState.runAI aiState /\
  taskStatus after = JStr "PENDING" /\
  optGet (aiTaskStatus after) "progress" = JNum 0 /\
  polling after = true.
Proof.
  intros Hok Hjson Hsuccess Hdata Htask Hne after.
  assert (payloadAccepted (JObj fields) = true) as Hacc.
  { unfold payloadAccepted. cbn [optGet]. rewrite Hsuccess, Hdata. cbn [optGet].
    rewrite Htask. cbn. now rewrite (StringFacts.eqb_empty_false _ Hne). }
  pose proof (startAIProcessing_try_accepts response _ Hok Hjson Hacc) as Htry.
  cbn [optGet] in Htry. rewrite Hdata in Htry. cbn [optGet] in Htry.
  rewrite Htask in Htry.
  subst after. unfold startAIProcessing, tryCatch, bind. rewrite Htry.
  unfold polling, taskStatus, aiTaskStatus, aiTaskId. cbn.
  rewrite truthy_orElse_null. cbn [truthy].
  rewrite (StringFacts.eqb_empty_false _ Hne).
  repeat split; reflexivity.
Qed.

(** *** The toggle *)

Lemma toggle_off_unfold (reply : FetchResult) (aiState : AiState) :
  toggle false reply aiState =
  if truthy (aiTaskId aiState)
  then AiState.initial
  else {| AiState.runAI := false;
          AiState.aiTaskId := AiState.aiTaskId aiState;
          AiState.aiTaskStatus := AiState.aiTaskStatus aiState;
          AiState.aiError := AiState.aiError aiState |}.
Proof.
  unfold toggle, runStartEffect, startEffect, runAI, aiTaskId.
  cbn [onAiStateChange set_runAI set_aiTaskId set_aiTaskStatus set_aiError
       orKeep AiState.runAI AiState.aiTaskId orb andb negb].
  destruct (truthy (orElse (AiState.aiTaskId aiState) JNull)); reflexivity.
Qed.

(** What switching the toggle off does: with a task id held the reset
    branch of the first effect runs and clears task id, last known status
    and submission error; with no task id held its guard fails and the
    three fields stay as they were. *)
Lemma toggle_off_resets (reply : FetchResult) (aiState : AiState) :
  let after := toggle false reply aiState in
  AiState.runAI after = false /\
  (truthy (aiTaskId aiState) = true ->
     AiState.aiTaskId after = JNull /\
     AiState.aiTaskStatus after = JNull /\
     AiState.aiError after = None) /\
  (truthy (aiTaskId aiState) = false ->
     AiState.aiTaskId after = AiState.aiTaskId aiState /\
     AiState.aiTaskStatus after = AiState.aiTaskStatus aiState /\
     AiState.aiError after = AiState.aiError aiState).
Proof.
  cbv zeta. rewrite toggle_off_unfold.
  destruct (truthy (aiTaskId aiState)); cbn; repeat split; intros; congruence.
Qed.

(** *** Polling *)

Lemma terminal_not_polling (aiState : AiState) :
  terminal aiState = true -> polling aiState = false.
Proof.
  unfold terminal, polling. intros Hterminal.
  apply orb_true_iff in Hterminal as [H | H].
  - rewrite (strictEqStr_exclusive _ "COMPLETED" "RUNNING"),
            (strictEqStr_exclusive _ "COMPLETED" "PENDING")
      by (assumption || discriminate).
    apply andb_false_r.
  - rewrite (strictEqStr_exclusive _ "FAILED" "RUNNING"),
            (strictEqStr_exclusive _ "FAILED" "PENDING")
      by (assumption || discriminate).
    apply andb_false_r.
Qed.

Lemma intervalTick_idle (reply : FetchResult) (aiState : AiState) :
  polling aiState = false -> intervalTick reply aiState = ([], aiState).
Proof. unfold intervalTick. now intros ->. Qed.

Lemma pollAll_idle (replies : list FetchResult) (aiState : AiState) :
  polling aiState = false -> pollAll replies aiState = ([], aiState).
Proof.
  intros Hidle. induction replies as [|reply later IH]; cbn [pollAll].
  - reflexivity.
  - now rewrite (intervalTick_idle reply aiState Hidle), IH.
Qed.

Lemma pollAll_app (before later : list FetchResult) (aiState : AiState) :
  pollAll (before ++ later) aiState =
  (fst (pollAll before aiState)
     ++ fst (pollAll later (snd (pollAll before aiState))),
   snd (pollAll later (snd (pollAll before aiState))))%list.
Proof.
  revert aiState. induction before as [|reply before IH]; intros aiState.
  - cbn. now destruct (pollAll later aiState).
  - cbn [pollAll app]. destruct (intervalTick reply aiState) as [issued next].
    rewrite IH. destruct (pollAll before next) as [issued' next']. cbn [fst snd].
    destruct (pollAll later next'). cbn [fst snd]. now rewrite app_assoc.
Qed.

(** In the runs where every reply arrives before the next period, the
    requests issued once the stored snapshot is COMPLETED or FAILED are
    none: those issued over [before ++ later] are those issued over
    [before]. *)
Lemma pollAll_after_terminal (before later : list FetchResult)
    (aiState : AiState) :
  terminal (snd (pollAll before aiState)) = true ->
  pollAll (before ++ later) aiState = pollAll before aiState.
Proof.
  intros Hterminal. rewrite pollAll_app.
  rewrite (pollAll_idle later _ (terminal_not_polling _ Hterminal)).
  cbn [fst snd]. rewrite app_nil_r. now destruct (pollAll before aiState).
Qed.

Lemma polling_task (aiState : AiState) :
  polling aiState = true -> truthy (aiTaskId aiState) = true.
Proof. unfold polling. intros H. now apply andb_true_iff in H as [H _]. Qed.

Lemma checkAITaskStatus_storeReply (reply : FetchResult) (aiState : AiState) :
  truthy (aiTaskId aiState) = true ->
  checkAITaskStatus reply aiState = ([taskUrl aiState], storeReply reply aiState).
Proof. unfold checkAITaskStatus, storeReply. now intros ->. Qed.

(** A period followed by the reply to its poll is one [intervalTick]. *)
Lemma pollerRun_round_trip (reply : FetchResult) (later : list PollEvent)
    (aiState : AiState) :
  pollerRun (Elapse :: Arrive reply :: later) {| session := aiState; unanswered := 0 |}
  = let (issued, next) := intervalTick reply aiState in
    let (issuedLater, final) :=
      pollerRun later {| session := next; unanswered := 0 |} in
    ((issued ++ issuedLater)%list, final).
Proof.
  unfold intervalTick. cbn [pollerRun pollerStep session unanswered].
  destruct (polling aiState) eqn:Hpolling; cbn [andb].
  - rewrite (polling_task _ Hpolling).
    rewrite (checkAITaskStatus_storeReply _ _ (polling_task _ Hpolling)).
    cbn [session unanswered].
    now destruct (pollerRun later _).
  - cbn [session unanswered]. now destruct (pollerRun later _).
Qed.

(** [pollAll] is the poller on the runs without overlap. *)
Lemma pollAll_in_order (replies : list FetchResult) (aiState : AiState) :
  pollerRun (inOrder replies) {| session := aiState; unanswered := 0 |}
  = (fst (pollAll replies aiState),
     {| session := snd (pollAll replies aiState); unanswered := 0 |}).
Proof.
  revert aiState. induction replies as [|reply later IH]; intros aiState.
  - reflexivity.
  - change (inOrder (reply :: later)) with (Elapse :: Arrive reply :: inOrder later).
    rewrite pollerRun_round_trip. cbn [pollAll].
    destruct (intervalTick reply aiState) as [issued next].
    rewrite IH. now destruct (pollAll later next).
Qed.

Lemma checkAITaskStatus_try_fails (reply : FetchResult) :
  pollFails reply = true ->
  checkAITaskStatus_try reply = inr None \/
  exists error, checkAITaskStatus_try reply = inl error.
Proof.
  destruct reply as [error | response]; [right; thrown|].
  unfold pollFails, checkAITaskStatus_try, bind.
  destruct (json response) as [error | data]; [right; thrown|].
  unfold snapshotDelivered. intros Hfails. apply negb_true_iff in Hfails.
  destruct data; try (right; thrown); try (left; reflexivity).
  cbn [get optGet] in *. unfold ret.
  destruct (truthy (lookup "success" fields)); [|now left].
  cbn [andb] in Hfails. rewrite Hfails. now left.
Qed.

Lemma checkAITaskStatus_try_delivers (reply : FetchResult) (snapshot : JsVal) :
  checkAITaskStatus_try reply = inr (Some snapshot) ->
  pollFails reply = false /\ truthy snapshot = true /\
  exists response data,
    reply = inr response /\ json response = inr data /\
    snapshot = optGet data "data".
Proof.
  destruct reply as [error | response]; [discriminate|].
  unfold pollFails, snapshotDelivered, checkAITaskStatus_try, bind.
  destruct (json response) as [error | data] eqn:Hjson; [discriminate|].
  destruct data; try discriminate.
  cbn [get optGet]. unfold ret.
  destruct (truthy (lookup "success" fields)); [|discriminate].
  destruct (truthy (lookup "data" fields)) eqn:Hdata; [|discriminate].
  intros [= <-]. repeat split; try assumption.
  exists response, (JObj fields). now rewrite Hjson.
Qed.

(** What one call of [checkAITaskStatus] can do to the session: nothing, or
    store the delivered snapshot as the last known status. *)
Lemma checkAITaskStatus_session (reply : FetchResult) (aiState : AiState) :
  snd (checkAITaskStatus reply aiState) = aiState \/
  exists snapshot,
    checkAITaskStatus_try reply = inr (Some snapshot) /\
    snd (checkAITaskStatus reply aiState)
    = {| AiState.runAI := AiState.runAI aiState;
         AiState.aiTaskId := AiState.aiTaskId aiState;
         AiState.aiTaskStatus := snapshot;
         AiState.aiError := AiState.aiError aiState |}.
Proof.
  unfold checkAITaskStatus.
  destruct (negb (truthy (aiTaskId aiState))); [now left|].
  cbn [snd]. unfold tryCatch, bind.
  destruct (checkAITaskStatus_try reply) as [error | [snapshot|]];
    [now left | | now left].
  right. exists snapshot. split; reflexivity.
Qed.

Lemma checkAITaskStatus_fails (reply : FetchResult) (aiState : AiState) :
  pollFails reply = true -> snd (checkAITaskStatus reply aiState) = aiState.
Proof.
  intros Hfails. unfold checkAITaskStatus.
  destruct (negb (truthy (aiTaskId aiState))); [reflexivity|].
  cbn [snd]. unfold tryCatch, bind.
  destruct (checkAITaskStatus_try_fails reply Hfails) as [-> | [error ->]];
    reflexivity.
Qed.

(** What a reply does to the session when it arrives: nothing, or the
    delivered snapshot becomes the last known status. *)
Lemma storeReply_session (reply : FetchResult) (aiState : AiState) :
  storeReply reply aiState = aiState \/
  exists snapshot,
    checkAITaskStatus_try reply = inr (Some snapshot) /\
    storeReply reply aiState
    = {| AiState.runAI := AiState.runAI aiState;
         AiState.aiTaskId := AiState.aiTaskId aiState;
         AiState.aiTaskStatus := snapshot;
         AiState.aiError := AiState.aiError aiState |}.
Proof.
  unfold storeReply, tryCatch, bind.
  destruct (checkAITaskStatus_try reply) as [error | [snapshot|]];
    [now left | | now left].
  right. exists snapshot. split; reflexivity.
Qed.

(** An idle session stays idle when a reply arrives that does not deliver
    a RUNNING or PENDING snapshot. *)
Lemma storeReply_idle (reply : FetchResult) (aiState : AiState) :
  polling aiState = false -> deliversUnfinished reply = false ->
  polling (storeReply reply aiState) = false.
Proof.
  intros Hidle Hreply.
  destruct (storeReply_session reply aiState) as [-> | (snapshot & Htry & ->)];
    [exact Hidle|].
  destruct (checkAITaskStatus_try_delivers _ _ Htry)
    as (Hok & Htruthy & response & data & -> & Hjson & ->).
  unfold pollFails in Hok. unfold deliversUnfinished in Hreply.
  rewrite Hjson in Hok, Hreply. apply negb_false_iff in Hok.
  rewrite Hok in Hreply. cbn [andb] in Hreply.
  unfold polling, taskStatus, aiTaskStatus. cbn [AiState.aiTaskStatus].
  rewrite (orElse_truthy _ _ Htruthy), Hreply. apply andb_false_r.
Qed.

(** C2 (as amended).  In a session whose last known status is COMPLETED or
    FAILED a period of the interval issues no request, whatever is still
    unanswered.  Over any periods and arrivals that follow, no request is
    issued and the interval stays off as long as no reply arrives that
    delivers a RUNNING or PENDING snapshot; and if no earlier poll is
    unanswered, nothing can arrive: no request is issued and the session
    stays as it is. *)
Theorem no_poll_after_terminal (events : list PollEvent) (poller : Poller) :
  terminal (session poller) = true ->
  fst (pollerStep Elapse poller) = [] /\
  ((forall reply, In (Arrive reply) events -> deliversUnfinished reply = false) ->
   fst (pollerRun events poller) = [] /\
   polling (session (snd (pollerRun events poller))) = false) /\
  (unanswered poller = 0 -> pollerRun events poller = ([], poller)).
Proof.
  intros Hterminal. apply terminal_not_polling in Hterminal as Hidle.
  clear Hterminal. split; [|split].
  - cbn [pollerStep]. now rewrite Hidle.
  - revert poller Hidle. induction events as [|event later IH];
      intros poller Hidle Hreplies; [now split|].
    cbn [pollerRun]. destruct event as [|reply]; cbn [pollerStep].
    + rewrite Hidle. cbn [andb].
      destruct (IH poller Hidle) as [Hnone Hoff].
      { intros reply Hin. apply Hreplies. now right. }
      destruct (pollerRun later poller). now split.
    + destruct (unanswered poller) as [|others].
      * destruct (IH poller Hidle) as [Hnone Hoff].
        { intros reply' Hin. apply Hreplies. now right. }
        destruct (pollerRun later poller). now split.
      * destruct (IH {| session := storeReply reply (session poller);
                        unanswered := others |}) as [Hnone Hoff].
        { apply storeReply_idle; [exact Hidle|]. apply Hreplies. now left. }
        { intros reply' Hin. apply Hreplies. now right. }
        destruct (pollerRun later _). now split.
  - intros Hnone. induction events as [|event later IH]; [reflexivity|].
    cbn [pollerRun]. destruct event as [|reply]; cbn [pollerStep].
    + rewrite Hidle. cbn [andb]. now rewrite IH.
    + rewrite Hnone. now rewrite IH.
Qed.

(** C7 (as amended).  A poll that fails (the request or the parsing
    throws, or the body has no truthy [success] and [data]) leaves the
    whole session as it was, task id, last known status and submission
    error included, and so leaves the interval as it was.  The interval of
    a polling session ends exactly with a reply that delivered a snapshot
    whose status is neither RUNNING nor PENDING; the snapshot is then the
    stored one, and when its status is one of the four task statuses it is
    COMPLETED or FAILED. *)
Theorem poll_failure_is_transient (reply : FetchResult) (aiState : AiState) :
  (pollFails reply = true ->
     snd (checkAITaskStatus reply aiState) = aiState /\
     snd (intervalTick reply aiState) = aiState /\
     polling (snd (intervalTick reply aiState)) = polling aiState)
  /\ (polling aiState = true ->
      (polling (snd (intervalTick reply aiState)) = false <->
       exists snapshot,
         checkAITaskStatus_try reply = inr (Some snapshot) /\
         strictEqStr (optGet snapshot "status") "RUNNING" = false /\
         strictEqStr (optGet snapshot "status") "PENDING" = false))
  /\ (polling aiState = true ->
      polling (snd (intervalTick reply aiState)) = false ->
      pollFails reply = false /\
      checkAITaskStatus_try reply
      = inr (Some (AiState.aiTaskStatus (snd (intervalTick reply aiState)))) /\
      (isTaskStatus (taskStatus (snd (intervalTick reply aiState))) = true ->
         terminal (snd (intervalTick reply aiState)) = true)).
Proof.
  assert (polling aiState = true ->
          polling (snd (intervalTick reply aiState)) = false ->
          exists snapshot,
            checkAITaskStatus_try reply = inr (Some snapshot) /\
            truthy snapshot = true /\
            AiState.aiTaskStatus (snd (intervalTick reply aiState)) = snapshot /\
            taskStatus (snd (intervalTick reply aiState)) = optGet snapshot "status" /\
            strictEqStr (optGet snapshot "status") "RUNNING" = false /\
            strictEqStr (optGet snapshot "status") "PENDING" = false) as Hends.
  { intros Hpolling. unfold intervalTick. rewrite Hpolling.
    destruct (checkAITaskStatus_session reply aiState)
      as [-> | (snapshot & Htry & ->)]; [congruence|].
    destruct (checkAITaskStatus_try_delivers _ _ Htry) as (_ & Htruthy & _).
    unfold polling, taskStatus, aiTaskStatus, aiTaskId in *.
    cbn [AiState.aiTaskId AiState.aiTaskStatus].
    rewrite (orElse_truthy _ _ Htruthy).
    apply andb_true_iff in Hpolling as [-> _]. cbn [andb].
    intros Hstopped. apply orb_false_iff in Hstopped as [Hrunning Hpending].
    exists snapshot. repeat split; assumption. }
  split; [|split].
  - intros Hfails.
    assert (snd (intervalTick reply aiState) = aiState) as Htick.
    { unfold intervalTick. destruct (polling aiState); [|reflexivity].
      now apply checkAITaskStatus_fails. }
    rewrite Htick. repeat split. now apply checkAITaskStatus_fails.
  - intros Hpolling. split.
    + intros Hstopped.
      destruct (Hends Hpolling Hstopped) as (snapshot & Htry & _ & _ & _ & Hr & Hp).
      now exists snapshot.
    + intros (snapshot & Htry & Hrunning & Hpending).
      destruct (checkAITaskStatus_try_delivers _ _ Htry) as (_ & Htruthy & _).
      unfold intervalTick. rewrite Hpolling.
      rewrite (checkAITaskStatus_storeReply _ _ (polling_task _ Hpolling)).
      cbn [snd]. unfold storeReply, tryCatch, bind. rewrite Htry.
      unfold polling, taskStatus, aiTaskStatus, aiTaskId, ret.
      cbn [onAiStateChange set_aiTaskStatus set_aiTaskId orKeep
           AiState.aiTaskId AiState.aiTaskStatus].
      rewrite (orElse_truthy _ _ Htruthy), Hrunning, Hpending.
      apply andb_false_r.
  - intros Hpolling Hstopped.
    destruct (Hends Hpolling Hstopped)
      as (snapshot & Htry & _ & Hstored & Hstatus & Hrunning & Hpending).
    destruct (checkAITaskStatus_try_delivers _ _ Htry) as (Hok & _ & _).
    split; [exact Hok|]. split; [now rewrite Hstored|].
    unfold isTaskStatus, terminal. rewrite Hstatus, Hrunning, Hpending. cbn [orb].
    exact (fun H => H).
Qed.

End Facts.

(** *** Worked examples *)

Import Examples.

(** C2, on a run: task [abc123] is COMPLETED and one poll is unanswered;
    it fails on the network, periods pass, and nothing is sent. *)
Lemma no_poll_after_terminal_witness :
  fst (pollerRun [Elapse; Arrive networkError; Elapse]
         {| session := sessionWith completedWithPath; unanswered := 1 |})
  = [].
Proof.
  refine (proj1 (proj1 (proj2 (no_poll_after_terminal
                                 [Elapse; Arrive networkError; Elapse]
                                 {| session := sessionWith completedWithPath;
                                    unanswered := 1 |}
                                 eq_refl)) _)).
  intros reply [Hin | [Hin | [Hin | []]]]; try discriminate Hin.
  now injection Hin as <-.
Defined.

(** C2, the claim as stated fails.  Two polls of the RUNNING task
    [abc123] are under way when the reply to one of them stores a
    COMPLETED snapshot; the reply to the other, a RUNNING snapshot,
    arrives after it and is stored too, and the next period polls the
    task again. *)
Lemma late_reply_restarts_polling :
  let stored :=
    snd (pollerRun [Elapse; Elapse; Arrive (deliver completedWithPath)]
           {| session := sessionWith running; unanswered := 0 |}) in
  terminal (session stored) = true /\
  fst (pollerRun [Arrive (deliver running); Elapse] stored)
  = ["http://localhost:8000/api/v1/ai/tasks/abc123"].
Proof. split; reflexivity. Qed.

(** C3.  The submission of a session with the toggle on, answered by an
    HTTP 500.  The session then holds the error and no task id, as the
    claim says, but the toggle is still on: the [catch] block stores the
    message and does not switch [runAI] off, which the [catch] blocks of
    the sibling revisions do.  The right-hand pane goes on announcing a
    visualization. *)
Theorem failed_submission_keeps_toggle :
  submissionFails http500 = true /\
  startAIProcessing http500 switchedOn = failedSubmission /\
  AiState.runAI (startAIProcessing http500 switchedOn) = true /\
  visualizationPane (startAIProcessing http500 switchedOn) = GeneratingPane true None.
Proof. repeat split. Qed.

Lemma startAIProcessing_failure_witness :
  exists error,
    AiState.aiError (startAIProcessing http500 switchedOn) = Some (errorMessage error) /\
    AiState.aiTaskId (startAIProcessing http500 switchedOn) = JNull /\
    AiState.runAI (startAIProcessing http500 switchedOn) = true.
Proof.
  destruct (startAIProcessing_failure http500 switchedOn eq_refl)
    as (error & _ & Herror & Hid & _ & Hrun & _ & _).
  exists error. repeat split; assumption.
Defined.

(** C4.  The user unchecks the box in the session a failed submission
    left: the toggle is on, no task id is held, the error of the HTTP 500
    is set, and the checkbox is enabled.  The reset branch of the first
    effect, commented [Reset AI state when toggled off], is guarded by
    [!runAI && aiTaskId] and does not run: the toggle goes off and the
    submission error stays. *)
Theorem toggle_off_keeps_submission_error :
  toggleDisabled failedSubmission = false /\
  truthy (aiTaskId failedSubmission) = false /\
  toggle false http500 failedSubmission
  = {| AiState.runAI := false;
       AiState.aiTaskId := JNull;
       AiState.aiTaskStatus := JNull;
       AiState.aiError := Some "HTTP error! status: 500" |}.
Proof. repeat split. Qed.

Lemma toggle_off_resets_witness :
  toggleDisabled (sessionWith completedWithPath) = false /\
  AiState.aiTaskId (toggle false http500 (sessionWith completedWithPath)) = JNull /\
  AiState.aiTaskStatus (toggle false http500 (sessionWith completedWithPath)) = JNull /\
  AiState.aiError (toggle false http500 (sessionWith completedWithPath)) = None.
Proof.
  split; [reflexivity|].
  exact (proj1 (proj2 (toggle_off_resets http500 (sessionWith completedWithPath)))
           eq_refl).
Defined.

(** C5.  Task [abc123] whose last poll stored [{status: "COMPLETED",
    result: {}}], with no submission error.  No URL resolves, and the
    indicator is not [error]: [getStatusIndicator] has no branch for a
    COMPLETED snapshot without a URL, which falls through the FAILED and
    the RUNNING/PENDING tests to the [empty] of a session without a task. *)
Theorem completed_without_visualization_shows_empty :
  taskStatus (sessionWith completedEmptyResult) = JStr "COMPLETED" /\
  getVisualizationUrl (sessionWith completedEmptyResult) = None /\
  getStatusIndicator (sessionWith completedEmptyResult) = "empty".
Proof. repeat split. Qed.

Lemma getStatusIndicator_error_witness :
  getStatusIndicator (sessionWith failed) = "error".
Proof.
  exact (proj1 (proj2 (getStatusIndicator_error (sessionWith failed))) eq_refl).
Defined.

(** C6, on the scenario of the specification: task [abc123]. *)
Lemma startAIProcessing_success_witness :
  AiState.aiTaskId (startAIProcessing (replied true 200 accepted) switchedOn)
  = JStr "abc123" /\
  AiState.aiTaskStatus (startAIProcessing (replied true 200 accepted) switchedOn)
  = pendingStatus.
Proof.
  destruct (startAIProcessing_success
              {| ok := true; status := 200; json := inr accepted |}
              _ _ "abc123" switchedOn
              eq_refl eq_refl eq_refl eq_refl eq_refl
              (fun H : "abc123" = "" => eq_ind "abc123"
                 (fun s => match s with EmptyString => False | String _ _ => True end)
                 I "" H))
    as (Hid & Hstatus & _).
  split; assumption.
Defined.

(** C7, on a run: a network error leaves a RUNNING session as it was. *)
Lemma poll_failure_is_transient_witness :
  snd (intervalTick networkError (sessionWith running)) = sessionWith running /\
  polling (snd (intervalTick networkError (sessionWith running))) = true.
Proof.
  destruct (proj1 (poll_failure_is_transient networkError (sessionWith running)) eq_refl)
    as (_ & Hsame & Hpolling).
  split; [exact Hsame | exact Hpolling].
Defined.

(** C7, the claim as stated fails: a poll of the RUNNING task [abc123]
    that delivers [{status: "QUEUED"}] ends polling, and QUEUED is no
    terminal status. *)
Lemma queued_snapshot_ends_polling :
  polling (sessionWith running) = true /\
  pollFails (deliver queued) = false /\
  polling (snd (intervalTick (deliver queued) (sessionWith running))) = false /\
  terminal (snd (intervalTick (deliver queued) (sessionWith running))) = false.
Proof. repeat split. Qed.

End VideoPlayerSpec.

(** ** The annotation player *)
Module InteractiveVideoPlayerSpec.
Import InteractiveVideoPlayer.
Local Open Scope Q_scope.

(** *** Clicks *)

Lemma handleVideoClick_controls (rect : DOMRect) (videoRef : option Q) (now : N)
    (event : MouseEvent) (state : State) :
  (height rect * 0.8 <? clientY event - top rect)%float = true ->
  handleVideoClick (Some rect) videoRef now event state = state.
Proof.
  intros Hbelow. unfold handleVideoClick.
  destruct videoRef; [|reflexivity]. cbv zeta. now rewrite Hbelow.
Qed.

Lemma handleVideoClick_creates (rect : DOMRect) (currentTime : Q) (now : N)
    (event : MouseEvent) (state : State) :
  (height rect * 0.8 <? clientY event - top rect)%float = false ->
  handleVideoClick (Some rect) (Some currentTime) now event state
  = let newAnnotation :=
      {| id := Js.natToString now;
         x := ((clientX event - left rect) / width rect * 100)%float;
         y := ((clientY event - top rect) / height rect * 100)%float;
         text := "";
         timestamp := currentTime |} in
    {| annotations := (annotations state ++ [newAnnotation])%list;
       editingAnnotation := Some newAnnotation;
       tempText := "";
       isEditing := true |}.
Proof.
  intros Habove. unfold handleVideoClick.
  cbv zeta. now rewrite Habove.
Qed.

(** A click changes nothing, or it passed the test of the controls area
    and appended one annotation, which is open in the editor. *)
Lemma handleVideoClick_cases (containerRef : option DOMRect) (videoRef : option Q)
    (now : N) (event : MouseEvent) (state : State) :
  handleVideoClick containerRef videoRef now event state = state \/
  exists rect currentTime,
    containerRef = Some rect /\ videoRef = Some currentTime /\
    (height rect * 0.8 <? clientY event - top rect)%float = false /\
    handleVideoClick containerRef videoRef now event state
    = let created :=
        {| id := Js.natToString now;
           x := ((clientX event - left rect) / width rect * 100)%float;
           y := ((clientY event - top rect) / height rect * 100)%float;
           text := "";
           timestamp := currentTime |} in
      {| annotations := (annotations state ++ [created])%list;
         editingAnnotation := Some created;
         tempText := "";
         isEditing := true |}.
Proof.
  destruct containerRef as [rect|]; [|now left].
  destruct videoRef as [currentTime|]; [|now left].
  destruct (height rect * 0.8 <? clientY event - top rect)%float eqn:Htest.
  - left. now apply handleVideoClick_controls.
  - right. exists rect, currentTime. repeat split; try assumption.
    now apply handleVideoClick_creates.
Qed.


(** *** Deletion *)

Lemma editingHasId_true (state : State) (id' : string) :
  editingHasId state id' = true <->
  exists annotation, editingAnnotation state = Some annotation /\ id annotation = id'.
Proof.
  unfold editingHasId. destruct (editingAnnotation state) as [annotation|].
  - rewrite String.eqb_eq. split.
    + intros H. now exists annotation.
    + now intros (a & [= <-] & H).
  - split; [discriminate | now intros (a & H & _)].
Qed.

Lemma annotations_handleDeleteAnnotation (id' : string) (state : State) :
  annotations (handleDeleteAnnotation id' state)
  = filter (fun ann => negb (String.eqb (id ann) id')) (annotations state).
Proof. unfold handleDeleteAnnotation. now destruct (editingHasId state id'). Qed.

(** C10.  [handleDeleteAnnotation] keeps, in their order and untouched,
    exactly the annotations whose id differs from the given one.  If the
    annotation open in the editor has that id the editor is closed,
    otherwise the editing state is as it was; the text being typed is
    never touched. *)
Theorem handleDeleteAnnotation_frame (id' : string) (state : State) :
  annotations (handleDeleteAnnotation id' state)
  = filter (fun ann => negb (String.eqb (id ann) id')) (annotations state)
  /\ (forall ann,
        In ann (annotations (handleDeleteAnnotation id' state)) <->
        In ann (annotations state) /\ id ann <> id')
  /\ ((exists ann, editingAnnotation state = Some ann /\ id ann = id') ->
      isEditing (handleDeleteAnnotation id' state) = false /\
      editingAnnotation (handleDeleteAnnotation id' state) = None)
  /\ (~ (exists ann, editingAnnotation state = Some ann /\ id ann = id') ->
      isEditing (handleDeleteAnnotation id' state) = isEditing state /\
      editingAnnotation (handleDeleteAnnotation id' state) = editingAnnotation state)
  /\ tempText (handleDeleteAnnotation id' state) = tempText state.
Proof.
  split; [apply annotations_handleDeleteAnnotation|].
  split.
  { intros ann. rewrite annotations_handleDeleteAnnotation, filter_In.
    now rewrite negb_true_iff, String.eqb_neq. }
  unfold handleDeleteAnnotation.
  destruct (editingHasId state id') eqn:Hediting.
  - apply editingHasId_true in Hediting.
    repeat split; intros; try reflexivity; contradiction.
  - assert (~ (exists ann, editingAnnotation state = Some ann /\ id ann = id'))
      as Hnone.
    { intros H. apply editingHasId_true in H. congruence. }
    repeat split; intros; try reflexivity; contradiction.
Qed.

(** *** Worked examples *)

Import Examples.


(** C10, on a run: deleting the annotation open in the editor removes it,
    keeps the other one and closes the editor. *)
Lemma handleDeleteAnnotation_frame_witness :
  isEditing (handleDeleteAnnotation "1700000000000" editingFirst) = false /\
  editingAnnotation (handleDeleteAnnotation "1700000000000" editingFirst) = None.
Proof.
  apply (proj1 (proj2 (proj2
           (handleDeleteAnnotation_frame "1700000000000" editingFirst)))).
  exists (note "1700000000000"). split; reflexivity.
Defined.

End InteractiveVideoPlayerSpec.

(** ** The sidebar *)
Module AppSpec.
Import Js App.

(** *** Replacing in strings *)

Lemma prefix_split (p s : string) :
  String.prefix p s = true -> exists rest, s = p ++ rest.
Proof.
  revert s. induction p as [|c p IH]; intros s H; cbn in *.
  - now exists s.
  - destruct s as [|d s]; cbn in H; [discriminate|].
    destruct (Ascii.ascii_dec c d) as [->|]; [|discriminate].
    destruct (IH s H) as [rest ->]. now exists rest.
Qed.

Lemma replace_prefixed (p r s : string) :
  String.prefix p s = true ->
  exists rest, s = p ++ rest /\ Js.replace p r s = r ++ rest.
Proof.
  intros H. destruct (prefix_split _ _ H) as [rest ->].
  exists rest. split; [reflexivity | apply StringFacts.replace_leading].
Qed.

(** [replace] either finds nothing and returns its argument, or rewrites
    one occurrence of the pattern and nothing else. *)
Lemma replace_cases (p r s : string) :
  Js.replace p r s = s \/
  exists before after, s = before ++ p ++ after /\ Js.replace p r s = before ++ r ++ after.
Proof.
  induction s as [|c s IH].
  - destruct (String.prefix p "") eqn:E.
    + destruct (replace_prefixed p r _ E) as (rest & Hs & Hr).
      right. now exists "", rest.
    + left. now rewrite StringFacts.replace_unfold, E.
  - destruct (String.prefix p (String c s)) eqn:E.
    + destruct (replace_prefixed p r _ E) as (rest & Hs & Hr).
      right. now exists "", rest.
    + rewrite StringFacts.replace_unfold, E.
      destruct IH as [-> | (before & after & Hs & ->)]; [now left|].
      right. exists (String c before), after. cbn [append]. now rewrite Hs at 1.
Qed.

Lemma replace_length (p r s : string) :
  String.length p = String.length r ->
  String.length (Js.replace p r s) = String.length s.
Proof.
  intros Hlen. destruct (replace_cases p r s) as [-> | (b & a & Hs & ->)];
    [reflexivity|].
  rewrite Hs, !StringFacts.length_append. lia.
Qed.

Lemma replaceChar_length (c r : ascii) (s : string) :
  String.length (replaceChar c (String r "") s) = String.length s.
Proof.
  induction s as [|d s IH]; cbn; [reflexivity|].
  destruct (Ascii.eqb d c); cbn; now rewrite IH.
Qed.

Lemma replaceChar_free (c r : ascii) (s : string) :
  Ascii.eqb r c = false -> free c (replaceChar c (String r "") s) = true.
Proof.
  intros Hr. induction s as [|d s IH]; cbn; [reflexivity|].
  destruct (Ascii.eqb d c) eqn:E; cbn; now rewrite ?Hr, ?E, IH.
Qed.

Lemma replaceChar_of_free (c : ascii) (r s : string) :
  free c s = true -> replaceChar c r s = s.
Proof.
  induction s as [|d s IH]; cbn; [reflexivity|].
  intros H. apply andb_true_iff in H as [Hd Hs].
  apply negb_true_iff in Hd. rewrite Hd. cbn. now rewrite IH.
Qed.

(** *** Display names *)

(** X1.  The display name of a scene has the length of its id and no
    underscore; an id that starts with [scene_] gives a name that starts
    with [Scene ], the rest of the id following with its underscores
    turned into spaces. *)
Theorem getSceneName_shape (sceneId : string) :
  String.length (getSceneName sceneId) = String.length sceneId /\
  free "_" (getSceneName sceneId) = true /\
  forall rest, sceneId = "scene_" ++ rest ->
               getSceneName sceneId = "Scene " ++ replaceChar "_" " " rest.
Proof.
  unfold getSceneName. repeat split.
  - now rewrite replaceChar_length, replace_length.
  - now apply replaceChar_free.
  - intros rest ->. now rewrite StringFacts.replace_leading.
Qed.

Lemma prefix_mp4_free (c : ascii) (s : string) :
  Ascii.eqb c "." = false -> String.prefix ".mp4" (String c s) = false.
Proof.
  intros H.
  change (String.prefix ".mp4" (String c s))
    with (if Ascii.ascii_dec "." c then String.prefix "mp4" s else false).
  destruct (Ascii.ascii_dec "." c) as [<-|]; [|reflexivity].
  now rewrite Ascii.eqb_refl in H.
Qed.

(** X2.  For a name without a dot, [getEpisodeName] removes the [.mp4]
    that follows the name and returns the bare name unchanged. *)
Theorem getEpisodeName_strips_extension (name : string) :
  free "." name = true ->
  getEpisodeName (name ++ ".mp4") = name /\ getEpisodeName name = name.
Proof.
  unfold getEpisodeName. induction name as [|c name IH]; intros Hfree.
  - split; reflexivity.
  - cbn [free] in Hfree. apply andb_true_iff in Hfree as [Hc Hname].
    apply negb_true_iff in Hc. destruct (IH Hname) as [IH1 IH2].
    cbn [append].
    rewrite (StringFacts.replace_unfold _ _ (String c (name ++ ".mp4"))),
            (StringFacts.replace_unfold _ _ (String c name)),
            !prefix_mp4_free by exact Hc.
    now rewrite IH1, IH2.
Qed.

Lemma isWordChar_toUpperCase (c : ascii) :
  isWordChar (toUpperCase c) = isWordChar c.
Proof. destruct c as [[] [] [] [] [] [] [] []]; reflexivity. Qed.

Lemma toUpperCase_idempotent (c : ascii) :
  toUpperCase (toUpperCase c) = toUpperCase c.
Proof. destruct c as [[] [] [] [] [] [] [] []]; reflexivity. Qed.

Lemma toUpperCase_underscore (c : ascii) :
  Ascii.eqb (toUpperCase c) "_" = Ascii.eqb c "_".
Proof. destruct c as [[] [] [] [] [] [] [] []]; reflexivity. Qed.

Lemma capitalizeWords_length (afterWord : bool) (s : string) :
  String.length (capitalizeWords afterWord s) = String.length s.
Proof.
  revert afterWord. induction s as [|c s IH]; intros afterWord; cbn;
    [reflexivity | now rewrite IH].
Qed.

Lemma capitalizeWords_free (afterWord : bool) (s : string) :
  free "_" (capitalizeWords afterWord s) = free "_" s.
Proof.
  revert afterWord. induction s as [|c s IH]; intros afterWord; cbn [capitalizeWords free];
    [reflexivity|].
  rewrite IH. destruct (isWordChar c && negb afterWord);
    now rewrite ?toUpperCase_underscore.
Qed.

Lemma capitalizeWords_idempotent (afterWord : bool) (s : string) :
  capitalizeWords afterWord (capitalizeWords afterWord s) = capitalizeWords afterWord s.
Proof.
  revert afterWord. induction s as [|c s IH]; intros afterWord; cbn [capitalizeWords];
    [reflexivity|].
  destruct (isWordChar c && negb afterWord) eqn:E.
  - rewrite isWordChar_toUpperCase, E, toUpperCase_idempotent. now rewrite IH.
  - rewrite E. now rewrite IH.
Qed.

(** X3.  The display name of a scenario has the length of its id and no
    underscore, and naming is idempotent: a display name is its own
    display name. *)
Theorem getScenarioName_shape (scenarioId : string) :
  String.length (getScenarioName scenarioId) = String.length scenarioId /\
  free "_" (getScenarioName scenarioId) = true /\
  getScenarioName (getScenarioName scenarioId) = getScenarioName scenarioId.
Proof.
  unfold getScenarioName.
  assert (free "_" (capitalizeWords false (replaceChar "_" " " scenarioId)) = true)
    as Hfree.
  { rewrite capitalizeWords_free. now apply replaceChar_free. }
  repeat split.
  - now rewrite capitalizeWords_length, replaceChar_length.
  - exact Hfree.
  - rewrite (replaceChar_of_free _ _ _ Hfree). apply capitalizeWords_idempotent.
Qed.

(** *** The tree of scenarios, scenes and episodes *)

Lemma isExpanded_same (id : string) : isExpanded (Some id) id = true.
Proof. apply String.eqb_refl. Qed.

Lemma truthy_orElse_array (v : JsVal) : truthy (orElse v (JArr [])) = true.
Proof. unfold orElse. destruct (truthy v) eqn:E; [exact E | reflexivity]. Qed.

Lemma member_head (key : string) (v : JsVal) (rest : list (string * JsVal)) :
  member key ((key, v) :: rest) = Own v.
Proof. unfold member. cbn. now rewrite String.eqb_refl. Qed.

Lemma member_other (key other : string) (v : JsVal) (rest : list (string * JsVal)) :
  key <> other -> member other ((key, v) :: rest) = member other rest.
Proof. intros H. unfold member. cbn. apply String.eqb_neq in H. now rewrite H. Qed.

(** The key of a pair determines the pair when the scenario ids hold no
    hyphen. *)
Lemma episodesKey_injective (scenarioId sceneId scenarioId' sceneId' : string) :
  free "-" scenarioId = true -> free "-" scenarioId' = true ->
  episodesKey scenarioId sceneId = episodesKey scenarioId' sceneId' ->
  scenarioId = scenarioId' /\ sceneId = sceneId'.
Proof.
  unfold episodesKey. revert scenarioId'.
  induction scenarioId as [|c s IH]; intros [|d s'] Hfree Hfree' Hkey; cbn in *.
  - injection Hkey as ->. now split.
  - injection Hkey as <- _. now rewrite Ascii.eqb_refl in Hfree'.
  - injection Hkey as -> _. now rewrite Ascii.eqb_refl in Hfree.
  - injection Hkey as -> Hkey.
    apply andb_true_iff in Hfree as [_ Hfree].
    apply andb_true_iff in Hfree' as [_ Hfree'].
    destruct (IH s' Hfree Hfree' Hkey) as [-> ->]. now split.
Qed.

Lemma episodesKey_hyphen (scenarioId sceneId : string) :
  free "-" (episodesKey scenarioId sceneId) = false.
Proof.
  unfold episodesKey. induction scenarioId as [|c s IH]; cbn in *; [reflexivity|].
  rewrite IH. apply andb_false_r.
Qed.

(** No key of the [episodes] object is a property of [Object.prototype]:
    those have no hyphen. *)
Lemma episodesKey_not_inherited (scenarioId sceneId : string) :
  existsb (String.eqb (episodesKey scenarioId sceneId)) objectPrototypeKeys = false.
Proof.
  destruct (existsb _ _) eqn:E; [|reflexivity].
  apply existsb_exists in E as (key & Hin & Heq). apply String.eqb_eq in Heq.
  assert (forallb (free "-") objectPrototypeKeys = true) as Hfree by reflexivity.
  rewrite forallb_forall in Hfree. specialize (Hfree key Hin).
  rewrite <- Heq, episodesKey_hyphen in Hfree. discriminate.
Qed.

(** A list of names renders when what is rendered for each name does. *)
Lemma names_render (v : JsVal) (inner : string -> bool) :
  (forall name, inner name = true) ->
  isNames v = true -> listingRenders (Own v) inner = true.
Proof.
  intros Hinner. destruct v; try discriminate. cbn. intros H.
  apply forallb_forall. intros item Hin.
  rewrite forallb_forall in H. specialize (H item Hin).
  destruct item; try discriminate. apply Hinner.
Qed.

Section Tree.
Context {rt : JsRuntime}.

(** What [fetchScenes] leaves when the sidebar is still there: the body
    was not [null], and the cells are those of before but for the entry
    of the scenario and the spinner. *)
Lemma fetchScenes_rendered (scenarioId : string) (reply : FetchResult)
    (tree after : Tree) :
  fetchScenes scenarioId reply tree = Some after ->
  after = {| expandedScenario := expandedScenario tree;
             expandedScene := expandedScene tree;
             scenes := match parsed reply with
                       | Some data => (scenarioId, listing "scenes" data) :: scenes tree
                       | None => scenes tree
                       end;
             episodes := episodes tree;
             loadingScenes := None;
             loadingEpisodes := loadingEpisodes tree |}
  /\ sidebarRenders after = true
  /\ (forall data, parsed reply = Some data -> nullish data = false).
Proof.
  unfold fetchScenes, parsed, listing, rendered, tryCatch, bind, ret.
  destruct reply as [error | response].
  - destruct (sidebarRenders _) eqn:E; [|discriminate].
    intros [= <-]. now repeat split.
  - destruct (json response) as [error | data].
    + destruct (sidebarRenders _) eqn:E; [|discriminate].
      intros [= <-]. now repeat split.
    + destruct data; try discriminate; cbn [get ret throw];
        (destruct (sidebarRenders _) eqn:E; [|discriminate]);
        intros [= <-]; (repeat split; [exact E|]); now intros data' [= <-].
Qed.

Lemma fetchEpisodes_rendered (scenarioId sceneId : string) (reply : FetchResult)
    (tree after : Tree) :
  fetchEpisodes scenarioId sceneId reply tree = Some after ->
  after = {| expandedScenario := expandedScenario tree;
             expandedScene := expandedScene tree;
             scenes := scenes tree;
             episodes := match parsed reply with
                         | Some data =>
                             (episodesKey scenarioId sceneId, listing "episodes" data)
                               :: episodes tree
                         | None => episodes tree
                         end;
             loadingScenes := loadingScenes tree;
             loadingEpisodes := None |}
  /\ sidebarRenders after = true
  /\ (forall data, parsed reply = Some data -> nullish data = false).
Proof.
  unfold fetchEpisodes, parsed, listing, rendered, tryCatch, bind, ret.
  destruct reply as [error | response].
  - destruct (sidebarRenders _) eqn:E; [|discriminate].
    intros [= <-]. now repeat split.
  - destruct (json response) as [error | data].
    + destruct (sidebarRenders _) eqn:E; [|discriminate].
      intros [= <-]. now repeat split.
    + destruct data; try discriminate; cbn [get ret throw];
        (destruct (sidebarRenders _) eqn:E; [|discriminate]);
        intros [= <-]; (repeat split; [exact E|]); now intros data' [= <-].
Qed.

(** With a body that is not [null] the updater stores what it lists. *)
Lemma fetchScenes_parsed (scenarioId : string) (reply : FetchResult) (tree : Tree)
    (data : JsVal) :
  parsed reply = Some data -> nullish data = false ->
  fetchScenes scenarioId reply tree
  = rendered {| expandedScenario := expandedScenario tree;
                expandedScene := expandedScene tree;
                scenes := (scenarioId, listing "scenes" data) :: scenes tree;
                episodes := episodes tree;
                loadingScenes := None;
                loadingEpisodes := loadingEpisodes tree |}.
Proof.
  unfold fetchScenes, parsed, listing, tryCatch, bind, ret.
  destruct reply as [error | response]; [discriminate|].
  destruct (json response) as [error | data']; [discriminate|].
  intros [= ->]. now destruct data.
Qed.

(** A body that is [null] unmounts the App: the updater handed to
    [setScenes] throws in the render. *)
Lemma fetchScenes_null (scenarioId : string) (reply : FetchResult) (tree : Tree)
    (data : JsVal) :
  parsed reply = Some data -> nullish data = true ->
  fetchScenes scenarioId reply tree = None.
Proof.
  unfold fetchScenes, parsed, tryCatch, bind, ret.
  destruct reply as [error | response]; [discriminate|].
  destruct (json response) as [error | data']; [discriminate|].
  intros [= ->]. now destruct data.
Qed.

Lemma handleScenarioClick_collapse (id : string) (reply : FetchResult) (tree : Tree) :
  isExpanded (expandedScenario tree) id = true ->
  handleScenarioClick id reply tree
  = ([], Some {| expandedScenario := None;
                 expandedScene := None;
                 scenes := scenes tree;
                 episodes := episodes tree;
                 loadingScenes := loadingScenes tree;
                 loadingEpisodes := loadingEpisodes tree |}).
Proof. unfold handleScenarioClick. now intros ->. Qed.

(** X4.  Expanding a scenario whose scenes are not held asks the server
    for them once.  A body that parses to [null] unmounts the App: the
    updater reads [data.scenes] in the render, outside the [try].  A body
    that lists names, or no scenes at all, leaves the sidebar rendered.
    Whenever the sidebar is still rendered after the click: the scenario
    is expanded and no scene is; [scenes] holds [data.scenes || []] for
    the scenario if the body parsed and is as before if the request or the
    parsing failed; clicking the scenario again collapses it without a
    request; and expanding it once more asks nothing in the first case and
    asks for the scenes again in the second. *)
Theorem scenes_fetched_once (id : string) (reply again later : FetchResult)
    (tree : Tree) :
  isExpanded (expandedScenario tree) id = false ->
  held id (scenes tree) = false ->
  fst (handleScenarioClick id reply tree) = [ScenesOf id]
  /\ (forall data,
        parsed reply = Some data -> nullish data = true ->
        snd (handleScenarioClick id reply tree) = None)
  /\ (forall data,
        parsed reply = Some data -> nullish data = false ->
        isNames (listing "scenes" data) = true ->
        snd (handleScenarioClick id reply tree) <> None)
  /\ (forall first,
        snd (handleScenarioClick id reply tree) = Some first ->
        expandedScenario first = Some id /\
        expandedScene first = None /\
        loadingScenes first = None /\
        scenes first = match parsed reply with
                       | Some data => (id, listing "scenes" data) :: scenes tree
                       | None => scenes tree
                       end /\
        exists collapsed,
          handleScenarioClick id again first = ([], Some collapsed) /\
          expandedScenario collapsed = None /\
          scenes collapsed = scenes first /\
          fst (handleScenarioClick id later collapsed)
          = match parsed reply with
            | Some _ => []
            | None => [ScenesOf id]
            end).
Proof.
  intros Hclosed Hmissing.
  unfold handleScenarioClick at 1 2 3 4. rewrite Hclosed, Hmissing. cbn [negb fst snd].
  split; [reflexivity|]. split; [|split].
  - intros data Hparsed Hnull. now apply (fetchScenes_null _ _ _ data).
  - intros data Hparsed Hnull Hnames.
    rewrite (fetchScenes_parsed _ _ _ data Hparsed Hnull).
    unfold rendered.
    match goal with
    | |- (if ?renders then _ else _) <> None =>
        assert (renders = true) as ->; [|discriminate]
    end.
    unfold sidebarRenders.
    cbn [expandedScenario expandedScene scenes loadingScenes isExpanded orb].
    rewrite member_head. now apply names_render.
  - intros first Hfirst.
    apply fetchScenes_rendered in Hfirst as (-> & _ & Hbody).
    cbn [expandedScenario expandedScene loadingScenes scenes].
    do 4 (split; [reflexivity|]).
    eexists. split; [apply handleScenarioClick_collapse, isExpanded_same|].
    cbn [expandedScenario scenes]. do 2 (split; [reflexivity|]).
    unfold handleScenarioClick. cbn [expandedScenario isExpanded scenes].
    destruct (parsed reply) as [data|].
    + unfold held. rewrite member_head. unfold listing.
      now rewrite truthy_orElse_array.
    + now rewrite Hmissing.
Qed.

(** X5.  Expanding a scene touches the episodes held for no other pair:
    when the scenario ids hold no hyphen and the sidebar is still rendered
    after the click, whatever is read under the key of a different
    (scenario, scene) pair is the same before and after.  No key of a pair
    is a name that objects inherit, so a click on a scene that is not
    expanded asks for its episodes exactly when no truthy entry of its own
    is held; and when the click fetched and the body parsed, the pair's
    key holds [data.episodes || []] afterwards. *)
Theorem episodes_held_by_pair (scenarioId sceneId scenarioId' sceneId' : string)
    (reply : FetchResult) (tree after : Tree) :
  free "-" scenarioId = true ->
  free "-" scenarioId' = true ->
  (scenarioId, sceneId) <> (scenarioId', sceneId') ->
  snd (handleSceneClick scenarioId sceneId reply tree) = Some after ->
  member (episodesKey scenarioId' sceneId') (episodes after)
  = member (episodesKey scenarioId' sceneId') (episodes tree)
  /\ (isExpanded (expandedScene tree) sceneId = false ->
      fst (handleSceneClick scenarioId sceneId reply tree)
      = match own (episodesKey scenarioId sceneId) (episodes tree) with
        | Some v => if truthy v then [] else [EpisodesOf scenarioId sceneId]
        | None => [EpisodesOf scenarioId sceneId]
        end)
  /\ (forall data,
        fst (handleSceneClick scenarioId sceneId reply tree) <> [] ->
        parsed reply = Some data ->
        member (episodesKey scenarioId sceneId) (episodes after)
        = Own (listing "episodes" data)).
Proof.
  intros Hfree Hfree' Hother. unfold handleSceneClick, held, member.
  rewrite episodesKey_not_inherited.
  destruct (isExpanded (expandedScene tree) sceneId); cbn [fst snd].
  { unfold rendered. destruct (sidebarRenders _); [|discriminate].
    intros [= <-]. cbn [episodes]. split; [reflexivity|].
    split; [discriminate | congruence]. }
  destruct (own (episodesKey scenarioId sceneId) (episodes tree)) as [v|] eqn:Hown.
  - destruct (truthy v); cbn [negb fst snd].
    + unfold rendered. destruct (sidebarRenders _); [|discriminate].
      intros [= <-]. cbn [episodes]. split; [reflexivity|].
      split; [reflexivity | congruence].
    + intros Hafter. apply fetchEpisodes_rendered in Hafter as (-> & _ & _).
      cbn [episodes]. split; [|split; [reflexivity|]].
      * destruct (parsed reply) as [data|]; [|reflexivity].
        fold (member (episodesKey scenarioId' sceneId')
                ((episodesKey scenarioId sceneId, listing "episodes" data)
                   :: episodes tree)).
        rewrite member_other; [reflexivity|].
        intros Hkey.
        destruct (episodesKey_injective _ _ _ _ Hfree Hfree' Hkey) as [-> ->].
        now apply Hother.
      * intros data _ ->. cbn. now rewrite String.eqb_refl.
  - cbn [negb fst snd].
    intros Hafter. apply fetchEpisodes_rendered in Hafter as (-> & _ & _).
    cbn [episodes]. split; [|split; [reflexivity|]].
    + destruct (parsed reply) as [data|]; [|reflexivity].
      fold (member (episodesKey scenarioId' sceneId')
              ((episodesKey scenarioId sceneId, listing "episodes" data)
                 :: episodes tree)).
      rewrite member_other; [reflexivity|].
      intros Hkey.
      destruct (episodesKey_injective _ _ _ _ Hfree Hfree' Hkey) as [-> ->].
      now apply Hother.
    + intros data _ ->. cbn. now rewrite String.eqb_refl.
Qed.

End Tree.

(** *** Worked examples *)

Import Examples.

Lemma getEpisodeName_strips_extension_witness :
  getEpisodeName "episode_000001.mp4" = "episode_000001".
Proof.
  exact (proj1 (getEpisodeName_strips_extension "episode_000001" eq_refl)).
Defined.

Lemma scenes_fetched_once_witness :
  fst (handleScenarioClick "pick_place" scenesListed collapsed)
  = [ScenesOf "pick_place"].
Proof.
  exact (proj1 (scenes_fetched_once "pick_place" scenesListed scenesListed
                  scenesListed collapsed eq_refl eq_refl)).
Defined.

(** X5, on a run: the scenes of [pick_place] are listed and the first is
    clicked; what is read for the second is as before. *)
Lemma episodes_held_by_pair_witness :
  member (episodesKey "pick_place" "scene_02")
    (episodes
       {| expandedScenario := Some "pick_place";
          expandedScene := Some "scene_01";
          scenes := scenes scenesShown;
          episodes := [("pick_place-scene_01", JArr [JStr "episode_000001.mp4"])];
          loadingScenes := None;
          loadingEpisodes := None |})
  = member (episodesKey "pick_place" "scene_02") (episodes scenesShown).
Proof.
  refine (proj1 (episodes_held_by_pair "pick_place" "scene_01" "pick_place" "scene_02"
                   episodesListed scenesShown _ eq_refl eq_refl _ eq_refl)).
  intros H. discriminate H.
Defined.

End AppSpec.

(** ** The annotation player, handler by handler *)
Module AnnotationSpec.
Import InteractiveVideoPlayer.
Local Open Scope Q_scope.

(** *** Lists of annotations *)

Lemma filter_absent (id' : string) (items : list Annotation) :
  hasId id' items = false ->
  filter (fun ann => negb (String.eqb (id ann) id')) items = items.
Proof.
  induction items as [|a items IH]; cbn; [reflexivity|].
  intros H. apply orb_false_iff in H as [Ha Hitems].
  rewrite Ha. cbn. now rewrite IH.
Qed.

Lemma hasId_true (id' : string) (items : list Annotation) :
  hasId id' items = true <-> exists ann, In ann items /\ id ann = id'.
Proof.
  unfold hasId. rewrite existsb_exists.
  split; intros (ann & Hin & H); exists ann; (split; [exact Hin|]);
    now apply String.eqb_eq.
Qed.

Lemma hasId_permutation (id' : string) (items items' : list Annotation) :
  Permutation items items' -> hasId id' items = true -> hasId id' items' = true.
Proof.
  intros Hperm H. apply hasId_true in H as (ann & Hin & Hid).
  apply hasId_true. exists ann. split; [|exact Hid].
  now apply (Permutation_in _ Hperm).
Qed.

(** *** The sort of the list *)

Lemma insertByTimestamp_permutation (a : Annotation) (items : list Annotation) :
  Permutation (a :: items) (insertByTimestamp a items).
Proof.
  induction items as [|b items IH]; cbn; [reflexivity|].
  destruct (Qle_bool (timestamp a) (timestamp b)); [reflexivity|].
  rewrite perm_swap. now constructor.
Qed.

Lemma sortByTimestamp_permutation (items : list Annotation) :
  Permutation items (sortByTimestamp items).
Proof.
  induction items as [|a items IH]; cbn; [reflexivity|].
  rewrite <- insertByTimestamp_permutation. now constructor.
Qed.

Lemma insertByTimestamp_sorted (a : Annotation) (items : list Annotation) :
  StronglySorted byTimestamp items ->
  StronglySorted byTimestamp (insertByTimestamp a items).
Proof.
  induction 1 as [|b items Hsorted IH Hall]; cbn.
  - repeat constructor.
  - destruct (Qle_bool (timestamp a) (timestamp b)) eqn:E.
    + apply Qle_bool_iff in E. constructor; [now constructor|].
      constructor; [exact E|].
      eapply Forall_impl; [|exact Hall]. intros c Hc. unfold byTimestamp in *.
      now apply Qle_trans with (timestamp b).
    + assert (timestamp b <= timestamp a) as Hba.
      { apply Qlt_le_weak, Qnot_le_lt. intros H. apply Qle_bool_iff in H. congruence. }
      constructor; [exact IH|].
      apply (Permutation_Forall (insertByTimestamp_permutation a items)).
      now constructor.
Qed.

Lemma sortByTimestamp_sorted (items : list Annotation) :
  StronglySorted byTimestamp (sortByTimestamp items).
Proof.
  induction items as [|a items IH]; cbn; [constructor|].
  now apply insertByTimestamp_sorted.
Qed.

Lemma sortByTimestamp_of_sorted (items : list Annotation) :
  StronglySorted byTimestamp items -> sortByTimestamp items = items.
Proof.
  induction 1 as [|a items Hsorted IH Hall]; cbn; [reflexivity|].
  rewrite IH. destruct items as [|b items]; [reflexivity|]. cbn.
  inversion Hall as [|? ? Hab _]; subst.
  apply Qle_bool_iff in Hab. now rewrite Hab.
Qed.

(** X6.  A render leaves the annotations in an order of non-decreasing
    timestamps, each annotation of the state exactly as often as before;
    rendering again changes nothing. *)
Theorem render_sorts (state : State) :
  Permutation (annotations state) (annotations (render state)) /\
  StronglySorted byTimestamp (annotations (render state)) /\
  render (render state) = render state.
Proof.
  unfold render; cbn [annotations isEditing editingAnnotation tempText].
  split; [apply sortByTimestamp_permutation|].
  split; [apply sortByTimestamp_sorted|].
  now rewrite (sortByTimestamp_of_sorted _ (sortByTimestamp_sorted _)).
Qed.

(** *** Saving a text *)

(** X7.  [handleTextSubmit] with an annotation open rewrites the list
    position by position: every annotation keeps its id, its coordinates
    and its timestamp, those with the id of the open annotation take the
    typed text and the others keep theirs; the editor is closed and the
    typed text cleared.  With no annotation open it does nothing. *)
Theorem handleTextSubmit_frame (state : State) :
  match editingAnnotation state with
  | None => handleTextSubmit state = state
  | Some editing =>
      Forall2
        (fun before after =>
           id after = id before /\ x after = x before /\ y after = y before /\
           timestamp after = timestamp before /\
           text after = if String.eqb (id before) (id editing)
                        then tempText state else text before)
        (annotations state) (annotations (handleTextSubmit state)) /\
      isEditing (handleTextSubmit state) = false /\
      editingAnnotation (handleTextSubmit state) = None /\
      tempText (handleTextSubmit state) = ""%string
  end.
Proof.
  unfold handleTextSubmit.
  destruct (editingAnnotation state) as [editing|]; [|reflexivity].
  cbn [annotations isEditing editingAnnotation tempText].
  split; [|now repeat split].
  induction (annotations state) as [|a items IH]; cbn [map]; constructor;
    [|exact IH].
  destruct (String.eqb (id a) (id editing)); now repeat split.
Qed.

Lemma map_absent (id' typed : string) (items : list Annotation) :
  hasId id' items = false ->
  map (fun ann => if String.eqb (id ann) id' then withText ann typed else ann)
      items = items.
Proof.
  induction items as [|a items IH]; cbn; [reflexivity|].
  intros H. apply orb_false_iff in H as [Ha Hitems].
  now rewrite Ha, IH.
Qed.

(** *** A click followed by another handler *)

(** X8.  A click followed by the deletion of the id the click would give
    ([Date.now()] read at the click) restores the list of annotations,
    provided no annotation already had that id; if the click created an
    annotation, the editor it opened is closed again. *)
Theorem click_then_delete (containerRef : option DOMRect) (videoRef : option Q)
    (now : N) (event : MouseEvent) (state : State) :
  hasId (Js.natToString now) (annotations state) = false ->
  let clicked := handleVideoClick containerRef videoRef now event state in
  let deleted := handleDeleteAnnotation (Js.natToString now) clicked in
  annotations deleted = annotations state /\
  (clicked <> state -> isEditing deleted = false /\ editingAnnotation deleted = None).
Proof.
  intros Hfresh clicked deleted. subst deleted.
  destruct (InteractiveVideoPlayerSpec.handleVideoClick_cases
              containerRef videoRef now event state)
    as [Hsame | (rect & currentTime & _ & _ & _ & Hcreated)];
    fold clicked in Hsame || fold clicked in Hcreated.
  - rewrite Hsame. split; [|congruence].
    rewrite InteractiveVideoPlayerSpec.annotations_handleDeleteAnnotation.
    now apply filter_absent.
  - rewrite Hcreated. cbv zeta. unfold handleDeleteAnnotation, editingHasId.
    cbn [editingAnnotation annotations id isEditing tempText].
    rewrite String.eqb_refl. cbn [annotations isEditing editingAnnotation].
    split; [|now split].
    rewrite filter_app, (filter_absent _ _ Hfresh). cbn.
    rewrite String.eqb_refl. cbn. apply app_nil_r.
Qed.

(** A rewriting of the annotations that keeps their timestamps goes
    through the sort. *)
Lemma map_insertByTimestamp (f : Annotation -> Annotation) (a : Annotation)
    (items : list Annotation) :
  (forall ann, timestamp (f ann) = timestamp ann) ->
  map f (insertByTimestamp a items) = insertByTimestamp (f a) (map f items).
Proof.
  intros Hf. induction items as [|b items IH]; cbn; [reflexivity|].
  rewrite !Hf. destruct (Qle_bool (timestamp a) (timestamp b)); cbn;
    [reflexivity | now rewrite IH].
Qed.

Lemma map_sortByTimestamp (f : Annotation -> Annotation) (items : list Annotation) :
  (forall ann, timestamp (f ann) = timestamp ann) ->
  map f (sortByTimestamp items) = sortByTimestamp (map f items).
Proof.
  intros Hf. induction items as [|a items IH]; cbn; [reflexivity|].
  now rewrite map_insertByTimestamp, IH.
Qed.

Lemma sortByTimestamp_idempotent (items : list Annotation) :
  sortByTimestamp (sortByTimestamp items) = sortByTimestamp items.
Proof. apply sortByTimestamp_of_sorted, sortByTimestamp_sorted. Qed.

(** X9.  A click above the controls with the video mounted, a text typed
    into the editor and a save, each followed by the render it causes:
    the list then holds the annotations of before and one more, the one of
    the click carrying the typed text, in the order of the sort (by
    timestamp, the new one after those of its timestamp), and the editor
    is closed; provided no annotation already had the id of the click. *)
Theorem click_type_save (rect : DOMRect) (currentTime : Q) (now : N)
    (event : MouseEvent) (typed : string) (state : State) :
  hasId (Js.natToString now) (annotations state) = false ->
  (height rect * 0.8 <? clientY event - top rect)%float = false ->
  let created :=
    {| id := Js.natToString now;
       x := ((clientX event - left rect) / width rect * 100)%float;
       y := ((clientY event - top rect) / height rect * 100)%float;
       text := typed;
       timestamp := currentTime |} in
  let saved :=
    render
      (handleTextSubmit
         (render
            (handleTextChange typed
               (render
                  (handleVideoClick (Some rect) (Some currentTime) now event state))))) in
  annotations saved = sortByTimestamp (annotations state ++ [created]) /\
  Permutation (annotations state ++ [created]) (annotations saved) /\
  StronglySorted byTimestamp (annotations saved) /\
  modalShown saved = false /\ tempText saved = ""%string.
Proof.
  intros Hfresh Habove created saved.
  assert (annotations saved = sortByTimestamp (annotations state ++ [created])) as Hsaved.
  { subst saved.
    rewrite InteractiveVideoPlayerSpec.handleVideoClick_creates by assumption.
    cbv zeta. unfold handleTextSubmit, handleTextChange, render.
    cbn [editingAnnotation annotations id isEditing tempText].
    rewrite sortByTimestamp_idempotent.
    rewrite map_sortByTimestamp
      by (intros ann; now destruct (String.eqb (id ann) (Js.natToString now))).
    rewrite sortByTimestamp_idempotent.
    rewrite map_app, (map_absent _ typed _ Hfresh).
    cbn [map id]. now rewrite String.eqb_refl. }
  rewrite Hsaved.
  split; [reflexivity|].
  split; [apply sortByTimestamp_permutation|].
  split; [apply sortByTimestamp_sorted|].
  subst saved.
  rewrite InteractiveVideoPlayerSpec.handleVideoClick_creates by assumption.
  now split.
Qed.

(** *** Deleting *)

Lemma handleDeleteAnnotation_unfold (id' : string) (state : State) :
  handleDeleteAnnotation id' state
  = {| annotations :=
         filter (fun ann => negb (String.eqb (id ann) id')) (annotations state);
       isEditing := if editingHasId state id' then false else isEditing state;
       editingAnnotation :=
         if editingHasId state id' then None else editingAnnotation state;
       tempText := tempText state |}.
Proof. unfold handleDeleteAnnotation. now destruct (editingHasId state id'). Qed.

Lemma filter_filter_swap {A} (f g : A -> bool) (items : list A) :
  filter f (filter g items) = filter g (filter f items).
Proof.
  induction items as [|a items IH]; cbn; [reflexivity|].
  destruct (f a) eqn:Hf, (g a) eqn:Hg; cbn; rewrite ?Hf, ?Hg, IH; reflexivity.
Qed.

Lemma filter_filter_same {A} (f : A -> bool) (items : list A) :
  filter f (filter f items) = filter f items.
Proof.
  induction items as [|a items IH]; cbn; [reflexivity|].
  destruct (f a) eqn:Hf; cbn; rewrite ?Hf, IH; reflexivity.
Qed.

(** X10.  Deleting is idempotent, and two deletions commute: the state
    after deleting two ids, editor cells included, does not depend on the
    order. *)
Theorem handleDeleteAnnotation_commutes (first second : string) (state : State) :
  handleDeleteAnnotation first (handleDeleteAnnotation first state)
  = handleDeleteAnnotation first state /\
  handleDeleteAnnotation first (handleDeleteAnnotation second state)
  = handleDeleteAnnotation second (handleDeleteAnnotation first state).
Proof.
  rewrite !handleDeleteAnnotation_unfold. unfold editingHasId.
  cbn [annotations isEditing editingAnnotation tempText].
  rewrite filter_filter_same.
  rewrite (filter_filter_swap (fun ann => negb (String.eqb (id ann) first))).
  destruct (editingAnnotation state) as [editing|]; [|split; reflexivity].
  destruct (String.eqb (id editing) first) eqn:Hfirst,
           (String.eqb (id editing) second) eqn:Hsecond;
    cbn; rewrite ?Hfirst, ?Hsecond; split; reflexivity.
Qed.

(** *** What every handler keeps *)

Lemma invariant_submit (state : State) : invariant state -> invariant (handleTextSubmit state).
Proof.
  intros (Hcells & Hlisted). unfold handleTextSubmit.
  destruct (editingAnnotation state) as [editing|] eqn:E; now repeat split.
Qed.

Lemma invariant_cancel (state : State) : invariant state -> invariant (handleTextCancel state).
Proof. intros _. now repeat split. Qed.

Lemma hasId_filter (id' kept : string) (items : list Annotation) :
  kept <> id' -> hasId kept items = true ->
  hasId kept (filter (fun ann => negb (String.eqb (id ann) id')) items) = true.
Proof.
  intros Hne H. apply hasId_true in H as (ann & Hin & Hid).
  apply hasId_true. exists ann. split; [|exact Hid].
  apply filter_In. split; [exact Hin|].
  apply negb_true_iff, String.eqb_neq. congruence.
Qed.

(** X11.  In every state the component goes through, whatever the clicks
    on the container, the markers and the delete buttons, the texts typed,
    the keys pressed and the renders in between: [isEditing] is set
    exactly when an annotation is open in the editor, and that annotation
    is one of the list (by its id). *)
Theorem reachable_invariant (state : State) : Reachable state -> invariant state.
Proof.
  induction 1 as [ | rect videoRef now event state _ IH
                   | annotation state _ IH Hin
                   | annotation state _ IH Hin
                   | value state _ IH
                   | key state _ IH
                   | state _ IH
                   | state _ IH
                   | state _ IH ].
  - now repeat split.
  - destruct (InteractiveVideoPlayerSpec.handleVideoClick_cases
                (Some rect) videoRef now event state)
      as [-> | (rect' & currentTime & [= <-] & _ & Habove & ->)]; [exact IH|].
    cbv zeta. split; [reflexivity|]. unfold editingListed, hasId; cbn.
    rewrite existsb_app. cbn. rewrite String.eqb_refl. cbn. apply orb_true_r.
  - split; [reflexivity|].
    unfold editingListed; cbn. apply hasId_true. now exists annotation.
  - destruct IH as (Hcells & Hlisted).
    rewrite handleDeleteAnnotation_unfold. unfold invariant, editorConsistent, editingListed in *.
    cbn [annotations isEditing editingAnnotation].
    split.
    + destruct (editingHasId state (id annotation)); [reflexivity | exact Hcells].
    + unfold editingHasId in *. destruct (editingAnnotation state) as [editing|]; [|exact I].
      destruct (String.eqb (id editing) (id annotation)) eqn:E; [exact I|].
      apply hasId_filter; [now apply String.eqb_neq | exact Hlisted].
  - exact IH.
  - unfold handleKeyPress. destruct (String.eqb key "Enter");
      [now apply invariant_submit|].
    destruct (String.eqb key "Escape"); [now apply invariant_cancel | exact IH].
  - now apply invariant_submit.
  - now apply invariant_cancel.
  - destruct IH as (Hcells & Hlisted).
    pose proof (sortByTimestamp_permutation (annotations state)) as Hperm.
    split.
    + exact Hcells.
    + unfold editingListed in *; cbn.
      destruct (editingAnnotation state); [|exact I].
      now apply (hasId_permutation _ _ _ Hperm).
Qed.

(** *** Worked examples *)

Import Examples.

Lemma click_then_delete_witness :
  annotations
    (handleDeleteAnnotation (Js.natToString 1700000000000)
       (handleVideoClick (Some frame) (Some 3) 1700000000000 clickInside
          InteractiveVideoPlayer.initialState))
  = [].
Proof.
  exact (proj1 (click_then_delete (Some frame) (Some 3) 1700000000000 clickInside
                  InteractiveVideoPlayer.initialState eq_refl)).
Defined.

(** X9, on a run: an annotation at 5 seconds is listed; a click at 3
    seconds, a text and a save put the new annotation before it. *)
Lemma click_type_save_witness :
  map id
    (annotations
       (render
          (handleTextSubmit
             (render
                (handleTextChange "gripper closes"
                   (render
                      (handleVideoClick (Some frame) (Some 3) 1700000000000
                         clickInside later)))))))
  = ["1700000000000"; "1690000000000"]%string.
Proof.
  rewrite (proj1 (click_type_save frame 3 1700000000000 clickInside
                    "gripper closes" later eq_refl eq_refl)).
  reflexivity.
Defined.

(** X11, on a run: after a click, a render and the deletion of the new
    annotation the editor is closed. *)
Lemma reachable_invariant_witness :
  invariant
    (handleDeleteAnnotation "1700000000000"
       (render
          (handleVideoClick (Some frame) (Some 3) 1700000000000 clickInside
             InteractiveVideoPlayer.initialState))).
Proof.
  apply reachable_invariant.
  apply (reach_delete
           {| id := "1700000000000"; x := 25; y := 50; text := ""; timestamp := 3 |}).
  - apply reach_render, reach_videoClick, reach_initial.
  - left. reflexivity.
Defined.

End AnnotationSpec.

(** ** The session of the video player, event by event *)
Module SessionSpec.
Import Js VideoPlayer.

Section Facts.
Context {rt : JsRuntime}.

(** *** Polling *)

Lemma checkAITaskStatus_issued (reply : FetchResult) (aiState : AiState) :
  fst (checkAITaskStatus reply aiState)
  = if truthy (aiTaskId aiState) then [taskUrl aiState] else [].
Proof. unfold checkAITaskStatus. now destruct (truthy (aiTaskId aiState)). Qed.

(** A period leaves every cell but the last known status alone. *)
Lemma intervalTick_frame (reply : FetchResult) (aiState : AiState) :
  AiState.runAI (snd (intervalTick reply aiState)) = AiState.runAI aiState /\
  AiState.aiTaskId (snd (intervalTick reply aiState)) = AiState.aiTaskId aiState /\
  AiState.aiError (snd (intervalTick reply aiState)) = AiState.aiError aiState /\
  (fst (intervalTick reply aiState) = [] \/
   fst (intervalTick reply aiState) = [taskUrl aiState]).
Proof.
  unfold intervalTick. destruct (polling aiState); [|now repeat split; left].
  rewrite checkAITaskStatus_issued.
  destruct (VideoPlayerSpec.checkAITaskStatus_session reply aiState)
    as [-> | (snapshot & _ & ->)]; cbn;
    (repeat split; destruct (truthy (aiTaskId aiState)); [now right | now left]).
Qed.

Lemma taskUrl_of_id (aiState aiState' : AiState) :
  AiState.aiTaskId aiState' = AiState.aiTaskId aiState ->
  taskUrl aiState' = taskUrl aiState.
Proof. unfold taskUrl, aiTaskId. now intros ->. Qed.

(** X12.  Polling writes nothing but the last known status: over any
    replies the toggle, the task id and the submission error stay as they
    were, every request issued goes to the URL of the session's task, and
    there is at most one request per period. *)
Theorem polling_frame (replies : list FetchResult) (aiState : AiState) :
  AiState.runAI (snd (pollAll replies aiState)) = AiState.runAI aiState /\
  AiState.aiTaskId (snd (pollAll replies aiState)) = AiState.aiTaskId aiState /\
  AiState.aiError (snd (pollAll replies aiState)) = AiState.aiError aiState /\
  Forall (fun url => url = taskUrl aiState) (fst (pollAll replies aiState)) /\
  length (fst (pollAll replies aiState)) <= length replies.
Proof.
  revert aiState. induction replies as [|reply later IH]; intros aiState.
  - cbn. repeat split; constructor.
  - cbn [pollAll].
    destruct (intervalTick_frame reply aiState) as (Hrun & Hid & Herr & Hsent).
    destruct (intervalTick reply aiState) as [issued next]. cbn [fst snd] in *.
    destruct (IH next) as (Hrun' & Hid' & Herr' & Hall & Hlen).
    destruct (pollAll later next) as [issuedLater final]. cbn [fst snd] in *.
    repeat split; try congruence.
    + apply Forall_app. split.
      * destruct Hsent as [-> | ->]; repeat constructor.
      * eapply Forall_impl; [|exact Hall]. intros url ->. now apply taskUrl_of_id.
    + rewrite length_app. cbn [length].
      destruct Hsent as [-> | ->]; cbn; lia.
Qed.

(** *** The toggle *)

Lemma runSession_cons (path : string) (event : SessionEvent)
    (later : list SessionEvent) (aiState : AiState) :
  runSession path (event :: later) aiState
  = ((fst (sessionStep path event aiState)
        ++ fst (runSession path later (snd (sessionStep path event aiState))))%list,
     snd (runSession path later (snd (sessionStep path event aiState)))).
Proof.
  cbn [runSession]. destruct (sessionStep path event aiState) as [sent next].
  cbn [fst snd]. now destruct (runSession path later next).
Qed.

(** With an error stored and no task id, no event sends anything or writes
    any cell but the toggle. *)
Lemma sessionStep_stuck (path : string) (event : SessionEvent) (aiState : AiState) :
  truthy (aiTaskId aiState) = false ->
  present (aiError aiState) = true ->
  fst (sessionStep path event aiState) = [] /\
  AiState.aiTaskId (snd (sessionStep path event aiState)) = AiState.aiTaskId aiState /\
  AiState.aiTaskStatus (snd (sessionStep path event aiState))
    = AiState.aiTaskStatus aiState /\
  AiState.aiError (snd (sessionStep path event aiState)) = AiState.aiError aiState.
Proof.
  intros Hid Herror. destruct event as [checked reply | reply].
  - unfold sessionStep, toggle, runStartEffect, startEffect, runAI.
    unfold aiTaskId, aiError in *.
    cbn [onAiStateChange set_runAI set_aiTaskId set_aiTaskStatus set_aiError orKeep
         AiState.runAI AiState.aiTaskId AiState.aiError fst snd].
    rewrite Hid, Herror. cbn [negb andb]. rewrite !andb_false_r.
    now repeat split.
  - unfold sessionStep, intervalTick, polling. rewrite Hid. cbn. now repeat split.
Qed.

(** X13.  Once a submission has failed (an error is stored and no task id
    is held), the component cannot leave that state by itself: whatever
    the user does with the checkbox and however long the session lasts, no
    request is sent, the error is never cleared and no task is ever
    started. *)
Theorem submission_error_is_final (path : string) (events : list SessionEvent)
    (aiState : AiState) :
  truthy (aiTaskId aiState) = false ->
  present (aiError aiState) = true ->
  fst (runSession path events aiState) = [] /\
  AiState.aiTaskId (snd (runSession path events aiState)) = AiState.aiTaskId aiState /\
  AiState.aiTaskStatus (snd (runSession path events aiState))
    = AiState.aiTaskStatus aiState /\
  AiState.aiError (snd (runSession path events aiState)) = AiState.aiError aiState.
Proof.
  revert aiState. induction events as [|event later IH]; intros aiState Hid Herror.
  - now repeat split.
  - rewrite runSession_cons. cbn [fst snd].
    destruct (sessionStep_stuck path event aiState Hid Herror)
      as (Hsent & Hid' & Hstatus' & Herror').
    destruct (IH (snd (sessionStep path event aiState))) as (H1 & H2 & H3 & H4).
    + unfold aiTaskId in *. now rewrite Hid'.
    + unfold aiError in *. now rewrite Herror'.
    + rewrite Hsent, H1, H2, H3, H4. now repeat split.
Qed.

Lemma sessionStep_holding (path : string) (event : SessionEvent) (aiState : AiState) :
  truthy (aiTaskId aiState) = true ->
  switchesOff event = false ->
  forallb isPoll (fst (sessionStep path event aiState)) = true /\
  AiState.aiTaskId (snd (sessionStep path event aiState)) = AiState.aiTaskId aiState.
Proof.
  intros Hid Hon. destruct event as [checked reply | reply].
  - cbn in Hon. apply negb_false_iff in Hon. subst checked.
    unfold sessionStep, toggle, runStartEffect, startEffect, runAI.
    unfold aiTaskId in *.
    cbn [onAiStateChange set_runAI set_aiTaskId set_aiTaskStatus set_aiError orKeep
         AiState.runAI AiState.aiTaskId AiState.aiError fst snd].
    rewrite Hid. cbn. now split.
  - unfold sessionStep.
    destruct (intervalTick_frame reply aiState) as (_ & Hid' & _ & Hsent).
    destruct (intervalTick reply aiState) as [urls next]. cbn [fst snd] in *.
    split; [|exact Hid'].
    destruct Hsent as [-> | ->]; reflexivity.
Qed.

(** X14.  While a task id is held and the box is not unchecked, no second
    submission goes out: over any periods and any checking of the box,
    every request sent is a poll, and the task id stays the same. *)
Theorem one_submission_per_task (path : string) (events : list SessionEvent)
    (aiState : AiState) :
  truthy (aiTaskId aiState) = true ->
  forallb (fun event => negb (switchesOff event)) events = true ->
  forallb isPoll (fst (runSession path events aiState)) = true /\
  AiState.aiTaskId (snd (runSession path events aiState)) = AiState.aiTaskId aiState.
Proof.
  revert aiState. induction events as [|event later IH]; intros aiState Hid Hon.
  - now split.
  - cbn [forallb] in Hon. apply andb_true_iff in Hon as [Hevent Hlater].
    apply negb_true_iff in Hevent.
    rewrite runSession_cons. cbn [fst snd].
    destruct (sessionStep_holding path event aiState Hid Hevent) as (Hsent & Hid').
    destruct (IH (snd (sessionStep path event aiState))) as (H1 & H2).
    + unfold aiTaskId in *. now rewrite Hid'.
    + exact Hlater.
    + rewrite forallb_app, Hsent, H1, H2. now split.
Qed.

(** The session an accepted submission leaves. *)
Lemma toggle_on_accepted (response : Response) (data : JsVal) (aiState : AiState) :
  truthy (aiTaskId aiState) = false ->
  present (aiError aiState) = false ->
  ok response = true ->
  json response = inr data ->
  payloadAccepted data = true ->
  toggle true (inr response) aiState
  = {| AiState.runAI := true;
       AiState.aiTaskId := optGet (optGet data "data") "task_id";
       AiState.aiTaskStatus := pendingStatus;
       AiState.aiError := None |}.
Proof.
  intros Hid Herror Hok Hjson Hacc.
  unfold toggle, runStartEffect, startEffect, runAI.
  unfold aiTaskId, aiError in *.
  cbn [onAiStateChange set_runAI set_aiTaskId set_aiTaskStatus set_aiError orKeep
       AiState.runAI AiState.aiTaskId AiState.aiError].
  rewrite Hid, Herror. cbn [orb negb andb].
  unfold startAIProcessing, tryCatch, bind.
  now rewrite (VideoPlayerSpec.startAIProcessing_try_accepts response data Hok Hjson Hacc).
Qed.

(** X15.  Checking the box on a session without task and error, with a
    submission the server accepts, and then unchecking it, brings the
    session back to its initial value: no task id, no status, no error,
    toggle off. *)
Theorem toggle_on_then_off (response : Response) (data : JsVal)
    (reply : FetchResult) (aiState : AiState) :
  truthy (aiTaskId aiState) = false ->
  present (aiError aiState) = false ->
  ok response = true ->
  json response = inr data ->
  payloadAccepted data = true ->
  toggle false reply (toggle true (inr response) aiState) = AiState.initial.
Proof.
  intros Hid Herror Hok Hjson Hacc.
  rewrite (toggle_on_accepted response data aiState Hid Herror Hok Hjson Hacc).
  rewrite VideoPlayerSpec.toggle_off_unfold.
  unfold aiTaskId. cbn [AiState.aiTaskId].
  rewrite VideoPlayerSpec.truthy_orElse_null.
  apply andb_true_iff in Hacc as [_ Htask]. now rewrite Htask.
Qed.

(** *** What is shown *)

Lemma url_not_empty (rest : string) :
  String.eqb ("http://localhost:8000" ++ rest) "" = false.
Proof. reflexivity. Qed.

(** X16.  The three things the component derives from the snapshot agree:
    the indicator is [success] exactly when [getVisualizationUrl] resolves,
    and the right-hand pane is the video exactly then, playing the
    resolved URL. *)
Theorem success_iff_video (aiState : AiState) :
  (getStatusIndicator aiState = "success" <-> getVisualizationUrl aiState <> None) /\
  (forall url,
     visualizationPane aiState = VideoPane url <-> getVisualizationUrl aiState = Some url).
Proof.
  split.
  - rewrite VideoPlayerSpec.getStatusIndicator_unfold.
    rewrite VideoPlayerSpec.present_getVisualizationUrl.
    rewrite VideoPlayerSpec.getVisualizationUrl_resolves.
    destruct (strictEqStr (taskStatus aiState) "COMPLETED") eqn:Hc; cbn [andb].
    + destruct (truthy _); cbn [andb].
      * split; [now split | reflexivity].
      * split; [|intros [_ H]; discriminate].
        destruct (_ || _); [discriminate|]. destruct (_ || _); discriminate.
    + split; [|intros [H _]; discriminate].
      destruct (_ || _); [discriminate|]. destruct (_ || _); discriminate.
  - intros url. unfold visualizationPane, visualizationUrl.
    rewrite VideoPlayerSpec.getVisualizationUrl_unfold. cbv zeta.
    destruct (_ && _).
    + rewrite url_not_empty. cbn [negb]. split; congruence.
    + split; [|discriminate]. destruct (_ || _); discriminate.
Qed.


(** The session a delivered snapshot leaves. *)
Lemma intervalTick_delivers (response : Response) (body snapshot : JsVal)
    (aiState : AiState) :
  polling aiState = true ->
  json response = inr body ->
  truthy (optGet body "success") = true ->
  optGet body "data" = snapshot ->
  truthy snapshot = true ->
  intervalTick (inr response) aiState
  = ([taskUrl aiState],
     {| AiState.runAI := AiState.runAI aiState;
        AiState.aiTaskId := AiState.aiTaskId aiState;
        AiState.aiTaskStatus := snapshot;
        AiState.aiError := AiState.aiError aiState |}).
Proof.
  intros Hpolling Hjson Hsuccess Hdata Htruthy.
  unfold intervalTick. rewrite Hpolling. unfold checkAITaskStatus.
  unfold polling in Hpolling. apply andb_true_iff in Hpolling as [Hid _].
  rewrite Hid. cbn [negb]. f_equal.
  unfold checkAITaskStatus_try, tryCatch, bind. rewrite Hjson.
  destruct (VideoPlayerSpec.truthy_optGet_object _ _ Hsuccess) as [fields ->].
  cbn [get optGet ret] in *. now rewrite Hsuccess, Hdata, Htruthy.
Qed.

Lemma sessionStep_period (path : string) (reply : FetchResult) (aiState : AiState) :
  sessionStep path (Period reply) aiState
  = (map GetTask (fst (intervalTick reply aiState)), snd (intervalTick reply aiState)).
Proof. cbn. now destruct (intervalTick reply aiState). Qed.

Lemma sessionStep_toggle_on (path : string) (reply : FetchResult) (aiState : AiState) :
  truthy (aiTaskId aiState) = false ->
  present (aiError aiState) = false ->
  sessionStep path (Toggle true reply) aiState
  = ([PostProcessVideo (requestBody path)], toggle true reply aiState).
Proof.
  intros Hid Herror. unfold sessionStep, startEffect, runAI.
  unfold aiTaskId, aiError in *.
  cbn [onAiStateChange set_runAI set_aiTaskId set_aiTaskStatus set_aiError orKeep
       AiState.runAI AiState.aiTaskId AiState.aiError].
  now rewrite Hid, Herror.
Qed.

(** X18.  From a session without task and error: checking the box with an
    accepted submission for task [t], then one period whose reply delivers
    a COMPLETED snapshot with the visualization path [p], sends exactly the
    submission and one poll of [t], and ends with polling off, the
    indicator on [success] and the video pane playing the server base
    followed by [p]. *)
Theorem submit_poll_play (path t p : string) (response pollResponse : Response)
    (data body snapshot : JsVal) (aiState : AiState) :
  truthy (aiTaskId aiState) = false ->
  present (aiError aiState) = false ->
  ok response = true ->
  json response = inr data ->
  truthy (optGet data "success") = true ->
  optGet (optGet data "data") "task_id" = JStr t ->
  t <> "" ->
  json pollResponse = inr body ->
  truthy (optGet body "success") = true ->
  optGet body "data" = snapshot ->
  optGet snapshot "status" = JStr "COMPLETED" ->
  optGet (optGet (optGet snapshot "result") "visualization") "visualization_path"
    = JStr p ->
  let run :=
    runSession path [Toggle true (inr response); Period (inr pollResponse)] aiState in
  fst run = [PostProcessVideo (requestBody path);
             GetTask ("http://localhost:8000/api/v1/ai/tasks/" ++ t)] /\
  polling (snd run) = false /\
  getStatusIndicator (snd run) = "success" /\
  visualizationPane (snd run) = VideoPane ("http://localhost:8000" ++ p).
Proof.
  intros Hid Herror Hok Hjson Hsuccess Htask Ht Hpoll Hdelivered Hdata Hstatus Hpath run.
  assert (payloadAccepted data = true) as Hacc.
  { unfold payloadAccepted. rewrite Hsuccess, Htask. cbn.
    now rewrite (StringFacts.eqb_empty_false _ Ht). }
  assert (truthy snapshot = true) as Htruthy.
  { destruct snapshot; cbn in Hstatus; try discriminate; reflexivity. }
  assert (truthy (JStr t) = true) as Htt.
  { cbn. now rewrite (StringFacts.eqb_empty_false _ Ht). }
  pose proof (toggle_on_accepted response data aiState Hid Herror Hok Hjson Hacc)
    as Hsubmitted. rewrite Htask in Hsubmitted.
  set (submitted :=
         {| AiState.runAI := true; AiState.aiTaskId := JStr t;
            AiState.aiTaskStatus := pendingStatus; AiState.aiError := None |}) in *.
  assert (polling submitted = true) as Hpolling.
  { unfold polling, aiTaskId, taskStatus, aiTaskStatus. cbn [submitted AiState.aiTaskId
      AiState.aiTaskStatus]. rewrite VideoPlayerSpec.truthy_orElse_null, Htt. reflexivity. }
  pose proof (intervalTick_delivers pollResponse body snapshot submitted
                Hpolling Hpoll Hdelivered Hdata Htruthy) as Htick.
  set (final :=
         {| AiState.runAI := AiState.runAI submitted;
            AiState.aiTaskId := AiState.aiTaskId submitted;
            AiState.aiTaskStatus := snapshot;
            AiState.aiError := AiState.aiError submitted |}) in *.
  assert (run = ([PostProcessVideo (requestBody path); GetTask (taskUrl submitted)], final))
    as ->.
  { subst run. rewrite !runSession_cons. cbn [runSession fst snd].
    rewrite (sessionStep_toggle_on path (inr response) aiState Hid Herror), Hsubmitted.
    cbn [fst snd]. rewrite sessionStep_period, Htick. reflexivity. }
  cbn [fst snd].
  assert (taskStatus final = JStr "COMPLETED") as Hfinal.
  { unfold taskStatus, aiTaskStatus. cbn [final AiState.aiTaskStatus].
    now rewrite (VideoPlayerSpec.orElse_truthy _ _ Htruthy). }
  assert (getVisualizationUrl final = Some ("http://localhost:8000" ++ p)) as Hurl.
  { apply VideoPlayerSpec.getVisualizationUrl_path.
    - now rewrite Hfinal.
    - unfold aiTaskStatus. cbn [final AiState.aiTaskStatus].
      now rewrite (VideoPlayerSpec.orElse_truthy _ _ Htruthy). }
  repeat split.
  - unfold taskUrl, aiTaskId. cbn [submitted AiState.aiTaskId].
    now rewrite (VideoPlayerSpec.orElse_truthy _ _ Htt).
  - apply VideoPlayerSpec.terminal_not_polling. unfold terminal. now rewrite Hfinal.
  - rewrite VideoPlayerSpec.getStatusIndicator_unfold, Hfinal, Hurl. reflexivity.
  - unfold visualizationPane, visualizationUrl. rewrite Hurl. reflexivity.
Qed.

End Facts.

(** *** Worked examples *)

Import Examples.

Lemma submission_error_is_final_witness :
  fst (runSession episodePath
         [Toggle false http500; Toggle true (replied true 200 accepted);
          Period (deliver running)]
         failedSubmission)
  = [].
Proof.
  exact (proj1 (submission_error_is_final episodePath
                  [Toggle false http500; Toggle true (replied true 200 accepted);
                   Period (deliver running)]
                  failedSubmission eq_refl eq_refl)).
Defined.

Lemma one_submission_per_task_witness :
  forallb isPoll
    (fst (runSession episodePath
            [Period (deliver running); Toggle true (replied true 200 accepted);
             Period (deliver completedWithPath)]
            (sessionWith running)))
  = true.
Proof.
  exact (proj1 (one_submission_per_task episodePath
                  [Period (deliver running); Toggle true (replied true 200 accepted);
                   Period (deliver completedWithPath)]
                  (sessionWith running) eq_refl eq_refl)).
Defined.

Lemma toggle_on_then_off_witness :
  toggle false http500 (toggle true (replied true 200 accepted) AiState.initial)
  = AiState.initial.
Proof.
  exact (toggle_on_then_off {| ok := true; status := 200; json := inr accepted |}
           accepted http500 AiState.initial eq_refl eq_refl eq_refl eq_refl eq_refl).
Defined.


Lemma submit_poll_play_witness :
  visualizationPane
    (snd (runSession episodePath
            [Toggle true (replied true 200 accepted);
             Period (deliver completedWithPath)]
            AiState.initial))
  = VideoPane "http://localhost:8000/viz/abc123.mp4".
Proof.
  refine (proj2 (proj2 (proj2
    (submit_poll_play episodePath "abc123" "/viz/abc123.mp4"
       {| ok := true; status := 200; json := inr accepted |}
       {| ok := true; status := 200;
          json := inr (JObj [("success", JBool true); ("data", completedWithPath)]) |}
       accepted
       (JObj [("success", JBool true); ("data", completedWithPath)])
       completedWithPath AiState.initial
       eq_refl eq_refl eq_refl eq_refl eq_refl eq_refl _
       eq_refl eq_refl eq_refl eq_refl eq_refl)))).
  intros H. discriminate H.
Defined.

End SessionSpec.

(** ** The other revisions of the video player *)
Module RevisionSpec.
Import Js VideoPlayer.

Section Facts.
Context {rt : JsRuntime}.

(** *** The revision with [useState] cells *)

Lemma local_checkAITaskStatus (reply : FetchResult) (cells : AiState) :
  truthy (AiState.aiTaskId cells) = true ->
  snd (VideoPlayerLocal.checkAITaskStatus reply cells)
  = match VideoPlayerLocal.delivers reply with
    | Some snapshot => VideoPlayerLocal.setAiTaskStatus snapshot cells
    | None => cells
    end.
Proof.
  intros Hid. unfold VideoPlayerLocal.checkAITaskStatus, VideoPlayerLocal.delivers.
  rewrite Hid. cbn [negb snd]. unfold tryCatch, bind.
  destruct reply as [error | response]; [reflexivity|].
  destruct (ok response); cbn [negb]; [|reflexivity].
  destruct (json response) as [error | body]; [reflexivity|].
  destruct body; try reflexivity.
  cbn [get optGet ret].
  destruct (truthy (lookup "success" fields)); [|reflexivity].
  cbn [andb]. now destruct (truthy (lookup "data" fields)).
Qed.

(** X19.  In the revision with [useState] cells a polling session stops
    polling after a period exactly when the reply was a 2xx response that
    delivered a snapshot whose status is COMPLETED or FAILED; after any
    other reply (a network error, a non-2xx response, an unparsable or
    unsuccessful body, a snapshot with any other status) the interval is
    still on. *)
Theorem local_polling_ends_on_terminal (reply : FetchResult) (cells : AiState) :
  VideoPlayerLocal.polling cells = true ->
  (VideoPlayerLocal.polling (snd (VideoPlayerLocal.intervalTick reply cells)) = false <->
   exists snapshot,
     VideoPlayerLocal.delivers reply = Some snapshot /\
     strictEqStr (optGet snapshot "status") "COMPLETED"
     || strictEqStr (optGet snapshot "status") "FAILED" = true).
Proof.
  intros Hpolling.
  unfold VideoPlayerLocal.intervalTick. rewrite Hpolling.
  pose proof Hpolling as Hid. unfold VideoPlayerLocal.polling in Hid.
  apply andb_true_iff in Hid as [Hid _]. apply andb_true_iff in Hid as [Hid _].
  rewrite (local_checkAITaskStatus reply cells Hid).
  destruct (VideoPlayerLocal.delivers reply) as [snapshot|].
  - unfold VideoPlayerLocal.polling, VideoPlayerLocal.taskStatus,
      VideoPlayerLocal.setAiTaskStatus.
    cbn [AiState.aiTaskId AiState.aiTaskStatus]. rewrite Hid. cbn [andb].
    split.
    + intros Hstopped. exists snapshot. split; [reflexivity|].
      destruct (strictEqStr (optGet snapshot "status") "COMPLETED");
        [reflexivity|].
      cbn in *. now apply negb_false_iff.
    + intros (snapshot' & [= <-] & Hterminal).
      destruct (strictEqStr (optGet snapshot "status") "COMPLETED");
        [reflexivity|].
      cbn in *. now rewrite Hterminal.
  - rewrite Hpolling. split; [discriminate|]. now intros (snapshot & H & _).
Qed.

(** *** The first revision *)

(** X20.  In the first revision a failing submission (network error,
    non-2xx response, unparsable or [null] body) ends with the message of
    the failure stored as the error (that of the rejection or parse error,
    [AI service error:] and the status text, or the TypeError of the read
    from [null]) and the toggle switched off, the task id and the status
    as they were; with no task id held the first effect then neither
    resubmits nor resets, so the error stays on screen. *)
Theorem legacy_failure_switches_off (reply : VideoPlayerLegacy.FetchResult)
    (cells : AiState) :
  VideoPlayerLegacy.submissionFails reply = true ->
  VideoPlayerLegacy.startAIProcessing reply cells
  = {| AiState.runAI := false;
       AiState.aiTaskId := AiState.aiTaskId cells;
       AiState.aiTaskStatus := AiState.aiTaskStatus cells;
       AiState.aiError := Some (VideoPlayerLegacy.failureMessage reply) |} /\
  (truthy (AiState.aiTaskId cells) = false ->
   VideoPlayerLegacy.startEffect (VideoPlayerLegacy.startAIProcessing reply cells)
   = NoEffect).
Proof.
  unfold VideoPlayerLegacy.submissionFails, VideoPlayerLegacy.startAIProcessing,
    VideoPlayerLegacy.startEffect, VideoPlayerLegacy.failureMessage, tryCatch, bind.
  destruct reply as [error | response].
  - intros _. split; [reflexivity|]. cbn. now intros ->.
  - destruct (VideoPlayerLegacy.ok response); cbn [negb orb].
    + destruct (VideoPlayerLegacy.json response) as [error | data].
      * intros _. split; [reflexivity|]. cbn. now intros ->.
      * destruct data; try discriminate; intros _; cbn [get throw];
          (split; [reflexivity|]; cbn; now intros ->).
    + intros _. split; [reflexivity|]. cbn. now intros ->.
Qed.

Lemma legacy_tick (reply : VideoPlayerLegacy.FetchResult) (cells : AiState) :
  truthy (AiState.aiTaskId cells) = true ->
  fst (VideoPlayerLegacy.intervalTick reply cells) = [VideoPlayerLegacy.taskUrl cells] /\
  AiState.aiTaskId (snd (VideoPlayerLegacy.intervalTick reply cells))
  = AiState.aiTaskId cells.
Proof.
  intros Hid. unfold VideoPlayerLegacy.intervalTick, VideoPlayerLegacy.polling,
    VideoPlayerLegacy.checkAITaskStatus.
  rewrite Hid. cbn [negb fst snd]. split; [reflexivity|].
  unfold tryCatch, bind. destruct reply as [error | response]; [reflexivity|].
  destruct (VideoPlayerLegacy.ok response); [|reflexivity].
  now destruct (VideoPlayerLegacy.json response).
Qed.

(** X21.  In the first revision polling never ends while a task id is
    held: whatever the replies, COMPLETED and FAILED snapshots included,
    every period issues one request to the URL of the task. *)
Theorem legacy_polling_never_ends (replies : list VideoPlayerLegacy.FetchResult)
    (cells : AiState) :
  truthy (AiState.aiTaskId cells) = true ->
  fst (VideoPlayerLegacy.pollAll replies cells)
  = repeat (VideoPlayerLegacy.taskUrl cells) (length replies).
Proof.
  revert cells. induction replies as [|reply later IH]; intros cells Hid.
  - reflexivity.
  - cbn [VideoPlayerLegacy.pollAll length repeat].
    destruct (legacy_tick reply cells Hid) as (Hsent & Hid').
    destruct (VideoPlayerLegacy.intervalTick reply cells) as [issued next].
    cbn [fst snd] in *. specialize (IH next).
    destruct (VideoPlayerLegacy.pollAll later next) as [issuedLater final].
    cbn [fst] in *. rewrite Hsent, IH by (now rewrite Hid').
    cbn. f_equal. f_equal. unfold VideoPlayerLegacy.taskUrl. now rewrite Hid'.
Qed.

End Facts.

(** *** Worked examples *)

Import Examples.

Lemma local_polling_ends_on_terminal_witness :
  VideoPlayerLocal.polling
    (snd (VideoPlayerLocal.intervalTick (deliver completedWithPath) (sessionWith running)))
  = false.
Proof.
  apply (local_polling_ends_on_terminal (deliver completedWithPath)
           (sessionWith running) eq_refl).
  exists completedWithPath. split; reflexivity.
Defined.

Lemma legacy_failure_switches_off_witness :
  VideoPlayerLegacy.startAIProcessing legacyHttp500 switchedOn
  = {| AiState.runAI := false;
       AiState.aiTaskId := JNull;
       AiState.aiTaskStatus := JNull;
       AiState.aiError := Some "AI service error: Internal Server Error" |}.
Proof.
  exact (proj1 (legacy_failure_switches_off legacyHttp500 switchedOn eq_refl)).
Defined.

Lemma legacy_polling_never_ends_witness :
  length
    (fst (VideoPlayerLegacy.pollAll [legacyCompleted; legacyCompleted; legacyHttp500]
            (sessionWith completedWithPath)))
  = 3.
Proof.
  now rewrite (legacy_polling_never_ends
                 [legacyCompleted; legacyCompleted; legacyHttp500]
                 (sessionWith completedWithPath) eq_refl).
Defined.

End RevisionSpec.

(** ** The episode data graph *)
Module GraphSpec.
Import Js EpisodeDataGraph.

Ltac thrown := intros; eexists; reflexivity.

Section Facts.
Context {rt : JsRuntime}.




End Facts.

(** *** The chart *)

Local Open Scope Q_scope.

Lemma quotient_bounds (a b low high : Q) :
  0 < b -> low * b <= a -> a <= high * b -> low <= a / b /\ a / b <= high.
Proof.
  intros Hb Hlow Hhigh. split.
  - now apply Qle_shift_div_l.
  - now apply Qle_shift_div_r.
Qed.

Lemma xOf_bounds (t : Q) : 0 <= t -> t <= 8 -> 60 <= xOf t /\ xOf t <= 740.
Proof.
  unfold xOf. intros H0 H8.
  assert (0 <= t / 8 /\ t / 8 <= 1) as [Hlow Hhigh]
    by (apply quotient_bounds; lra).
  set (q := t / 8) in *. split; lra.
Qed.

Lemma yOf_bounds (v : Q) :
  - (18 # 100) <= v -> v <= 18 # 100 -> 20 <= yOf v /\ yOf v <= 380.
Proof.
  unfold yOf. intros Hlow Hhigh.
  assert (- (1) <= v / (18 # 100) /\ v / (18 # 100) <= 1) as [Hlow' Hhigh']
    by (apply quotient_bounds; lra).
  set (q := v / (18 # 100)) in *. split; lra.
Qed.

Lemma line_inPlot (series : DataPoint -> Q) (prevPoint point : DataPoint) :
  inRange series prevPoint -> inRange series point ->
  inPlot (line series prevPoint point).
Proof.
  intros (Ht0 & Ht8 & Hlow & Hhigh) (Ht0' & Ht8' & Hlow' & Hhigh').
  destruct (xOf_bounds _ Ht0 Ht8), (xOf_bounds _ Ht0' Ht8'),
           (yOf_bounds _ Hlow Hhigh), (yOf_bounds _ Hlow' Hhigh').
  unfold inPlot; cbn. now repeat split.
Qed.

(** X23.  The lines drawn for a series form one polyline through the data
    points in their order: there is one line fewer than there are points
    (none for an empty or one-point series), each line starts where the
    one before ends, and when every point lies within 0 to 8 seconds and
    -0.18 to 0.18 every line lies inside the plotting area between the
    axes (x in [60, 740], y in [20, 380]). *)
Theorem lines_polyline (series : DataPoint -> Q) (points : list DataPoint) :
  length (lines series points) = (length points - 1)%nat /\
  connected (lines series points) /\
  (Forall (inRange series) points -> Forall inPlot (lines series points)).
Proof.
  induction points as [|prevPoint rest IH]; [now repeat split|].
  destruct rest as [|point rest]; [now repeat split|].
  destruct IH as (Hlen & Hconn & Hplot).
  cbn [lines] in *. repeat split.
  - cbn [length] in *. lia.
  - destruct rest; cbn; now split.
  - exact Hconn.
  - intros Hall. inversion Hall as [|? ? Hprev Hrest]; subst.
    constructor; [|now apply Hplot].
    inversion Hrest; subst. now apply line_inPlot.
Qed.

End GraphSpec.
